(** * marucamp: a LINE webhook handler with a per-user conversation state

    A shallow embedding of the Lambda handler of the repository (the
    conversation state machine, the three response parsers, the two
    Flex-message composers and the terminal actions), and the properties of
    the specification checked against it.

    JavaScript strings are sequences of UTF-16 code units; they are modelled
    as [list N].  The external services (the DynamoDB table [Users], the LINE
    messaging API and the chat-completion API) are modelled by a world that
    holds the table and the trace of the calls issued, and by oracles that
    decide the outcome of every call to LINE and to the completion API. *)

From Stdlib Require Import NArith String Ascii List Bool Lia.
From stdpp Require Import gmap strings list.
Import ListNotations.

Local Open Scope N_scope.

(** ** JavaScript strings *)

Abbreviation jsstring := (list N).

Module Utf16.

(** The byte values of a source literal (the file is UTF-8). *)
Fixpoint bytes (s : string) : list N :=
  match s with
  | EmptyString => []
  | String a r => N_of_ascii a :: bytes r
  end.

(** The payload of a continuation byte [10xxxxxx]. *)
Definition cont (b : N) : N := N.land b 63.

(** UTF-8 to UTF-16: one code unit for a code point of the basic plane, a
    surrogate pair for the others. *)
Fixpoint decode (bs : list N) : jsstring :=
  match bs with
  | [] => []
  | b0 :: r0 =>
    if b0 <? 128 then b0 :: decode r0
    else match r0 with
    | [] => []
    | b1 :: r1 =>
      if b0 <? 224 then (N.land b0 31 * 64 + cont b1) :: decode r1
      else match r1 with
      | [] => []
      | b2 :: r2 =>
        if b0 <? 240
        then (N.land b0 15 * 4096 + cont b1 * 64 + cont b2) :: decode r2
        else match r2 with
        | [] => []
        | b3 :: r3 =>
          let cp := N.land b0 7 * 262144 + cont b1 * 4096
                    + cont b2 * 64 + cont b3 in
          let v := cp - 65536 in
          (55296 + N.shiftr v 10) :: (56320 + N.land v 1023) :: decode r3
        end
      end
    end
  end.

End Utf16.

(** [js "..."] is the JavaScript string written by that literal. *)
Definition js (s : string) : jsstring := Utf16.decode (Utf16.bytes s).
Arguments js : simpl never.

Definition LF : N := 10.
Definition COLON : N := 58.
Definition DOT : N := 46.

(** [lines_js [l1; ...; ln]] is the text [l1 \n ... \n ln]. *)
Fixpoint lines_js (ls : list jsstring) : jsstring :=
  match ls with
  | [] => []
  | [l] => l
  | l :: r => l ++ LF :: lines_js r
  end.

(** White space of ECMAScript ([WhiteSpace] and [LineTerminator]): what
    [String.prototype.trim] removes and what [\s] matches. *)
Definition is_ws (c : N) : bool :=
  (c =? 9) || (c =? 10) || (c =? 11) || (c =? 12) || (c =? 13) || (c =? 32)
  || (c =? 160) || (c =? 5760) || ((8192 <=? c) && (c <=? 8202))
  || (c =? 8232) || (c =? 8233) || (c =? 8239) || (c =? 8287)
  || (c =? 12288) || (c =? 65279).

(** [\d]: the ASCII digits. *)
Definition is_digit (c : N) : bool := (48 <=? c) && (c <=? 57).

Fixpoint skip (p : N -> bool) (s : jsstring) : jsstring :=
  match s with
  | [] => []
  | c :: r => if p c then skip p r else s
  end.

Definition trimStart (s : jsstring) : jsstring := skip is_ws s.
Definition trimEnd (s : jsstring) : jsstring := rev (skip is_ws (rev s)).
Definition trim (s : jsstring) : jsstring := trimEnd (trimStart s).

Fixpoint startsWith (s p : jsstring) : bool :=
  match p, s with
  | [], _ => true
  | _ :: _, [] => false
  | a :: p', c :: s' => (c =? a) && startsWith s' p'
  end.

Fixpoint includes (s sub : jsstring) : bool :=
  startsWith s sub ||
  match s with
  | [] => false
  | _ :: r => includes r sub
  end.

(** [s.split(sep)] for a non-empty separator: the pieces between the
    occurrences of [sep], found from left to right without overlap.
    [pending] counts the code units of a matched separator still to pass,
    [cur] is the piece being read, reversed. *)
Fixpoint split_go (sep : jsstring) (pending : nat) (cur : jsstring)
    (s : jsstring) : list jsstring :=
  match s with
  | [] => [rev cur]
  | c :: r =>
    match pending with
    | S k => split_go sep k cur r
    | O =>
      if startsWith s sep
      then rev cur :: split_go sep (Nat.pred (length sep)) [] r
      else split_go sep O (c :: cur) r
    end
  end.

Definition split (s sep : jsstring) : list jsstring := split_go sep O [] s.

(** [s.split(sep, limit)]: every piece is cut, the first [limit] are kept. *)
Definition split_limit (s sep : jsstring) (limit : nat) : list jsstring :=
  take limit (split s sep).

(** The regular expression [/^\d+\./]. *)
Definition matches_number_dot (s : jsstring) : bool :=
  let rest := skip is_digit s in
  negb (length rest =? length s)%nat && startsWith rest [DOT].

(** [s.replace(/^\d+\.\s*/, '')]. *)
Definition strip_number (s : jsstring) : jsstring :=
  if matches_number_dot s
  then skip is_ws (tl (skip is_digit s))
  else s.

(** Truthiness of a string or of an optional string. *)
Definition truthy (s : jsstring) : bool := negb (length s =? 0)%nat.
Definition truthy_opt (o : option jsstring) : bool :=
  match o with Some s => truthy s | None => false end.

(** ** The records of the generated answers *)

Record CampInfo := mkCampInfo {
  camp_name : jsstring;
  homepage_url : option jsstring
}.

(** [Partial<YaychiInfo>]: the parser builds the records field by field and
    casts them to [YaychiInfo]; an absent field is [undefined] at run time. *)
Record YaychiInfo := mkYaychiInfo {
  yaychi_name : option jsstring;
  spot : option jsstring;
  description : option jsstring
}.

Record ItemInfo := mkItemInfo {
  item_name : jsstring;
  item_description : jsstring
}.

(** ** The response parsers *)

Definition numbered123 (line : jsstring) : bool :=
  startsWith line (js "1.") || startsWith line (js "2.")
  || startsWith line (js "3.").

(** One iteration of the loop of [parseResponse]. *)
Definition parseResponse_step (result : list CampInfo) (line : jsstring)
    : list CampInfo :=
  let line := trim line in
  if (0 <? length line)%nat && numbered123 line
  then result ++ [mkCampInfo (trim (strip_number line)) None]
  else result.

(** [parseResponse(res)], on [res.choices[0].message.content]. *)
Definition parseResponse (content : option jsstring) : list CampInfo :=
  let lines := match content with
               | Some c => split c [LF]
               | None => []
               end in
  fold_left parseResponse_step lines [].

Definition label_spot : jsstring := js "おすすめスポット:".
Definition label_description : jsstring := js "特徴・注意点:".

(** [line.split(label)[1]?.trim() || ''] *)
Definition after_label (line label : jsstring) : jsstring :=
  match split line label !! 1%nat with
  | Some piece => if truthy (trim piece) then trim piece else []
  | None => []
  end.

Definition emptyInfo : YaychiInfo := mkYaychiInfo None None None.

(** One iteration of the loop of [parseYaychiResponse] on the pair
    [(yaychiInfo, currentInfo)]. *)
Definition parseYaychi_step (st : list YaychiInfo * YaychiInfo)
    (line : jsstring) : list YaychiInfo * YaychiInfo :=
  let '(yaychiInfo, currentInfo) := st in
  let trimmedLine := trim line in
  if numbered123 trimmedLine then
    (if truthy_opt (yaychi_name currentInfo)
     then yaychiInfo ++ [currentInfo] else yaychiInfo,
     mkYaychiInfo (Some (trim (strip_number trimmedLine))) None None)
  else if includes trimmedLine label_spot then
    (yaychiInfo,
     mkYaychiInfo (yaychi_name currentInfo)
       (Some (after_label trimmedLine label_spot))
       (description currentInfo))
  else if includes trimmedLine label_description then
    (yaychiInfo,
     mkYaychiInfo (yaychi_name currentInfo) (spot currentInfo)
       (Some (after_label trimmedLine label_description)))
  else st.

Definition parseYaychiResponse (responseText : jsstring) : list YaychiInfo :=
  let '(yaychiInfo, currentInfo) :=
    fold_left parseYaychi_step (split responseText [LF]) ([], emptyInfo) in
  let yaychiInfo :=
    if truthy_opt (yaychi_name currentInfo)
    then yaychiInfo ++ [currentInfo] else yaychiInfo in
  take 3 yaychiInfo.

(** One iteration of the loop of [parseItemResponse]. *)
Definition parseItem_step (items : list ItemInfo) (line : jsstring)
    : list ItemInfo :=
  let trimmedLine := trim line in
  if matches_number_dot trimmedLine then
    match split_limit trimmedLine [COLON] 2 with
    | [p0; p1] => items ++ [mkItemInfo (trim (strip_number p0)) (trim p1)]
    | _ => items
    end
  else items.

Definition parseItemResponse (responseText : jsstring) : list ItemInfo :=
  fold_left parseItem_step (split responseText [LF]) [].


(** ** The Flex-message composers

    The templates [flex/camp.json] and [flex/yaychi.json] are static assets
    of the deployment; the composers take them as they are.  A template is a
    carousel: a list of bubbles.  A bubble is modelled by the places the
    composers write and by the rest of its content, which no composer
    reads. *)

Section Composers.

(** Whatever a bubble or a template holds besides the written places. *)
Context {Other : Type}.

(** A bubble of [camp.json]: [body.contents[0].text] and
    [footer.contents[0].contents[0].action.uri]. *)
Record CampBubble := mkCampBubble {
  camp_title : option jsstring;
  camp_uri : option jsstring;
  camp_other : Other
}.

(** A bubble of [yaychi.json]: [body.contents[0].text],
    [body.contents[1].contents[0].contents[1].text] and
    [body.contents[1].contents[1].contents[1].text]. *)
Record YaychiBubble := mkYaychiBubble {
  yaychi_title : option jsstring;
  yaychi_spot : option jsstring;
  yaychi_description : option jsstring;
  yaychi_other : Other
}.

Record Template (B : Type) := mkTemplate {
  contents : list B;
  template_other : Other
}.
Arguments mkTemplate {B} _ _.
Arguments contents {B} _.
Arguments template_other {B} _.

Record FlexMessage (B : Type) := mkFlexMessage {
  altText : jsstring;
  flex_contents : Template B
}.
Arguments mkFlexMessage {B} _ _.
Arguments altText {B} _.
Arguments flex_contents {B} _.

(** [arr.forEach((x, index) => ...)] from [index] on, the callback
    updating the bubbles [t] in place. *)
Fixpoint forEach_from {A T : Type} (callback : T -> A -> nat -> T)
    (index : nat) (arr : list A) (t : T) : T :=
  match arr with
  | [] => t
  | x :: r => forEach_from callback (S index) r (callback t x index)
  end.

Definition forEach {A T : Type} (callback : T -> A -> nat -> T)
    (arr : list A) (t : T) : T :=
  forEach_from callback O arr t.

(** What the callback of [createCampFlexMessage] writes in a bubble. *)
Definition write_camp (camp : CampInfo) (bubble : CampBubble) : CampBubble :=
  mkCampBubble (Some (camp_name camp))
    (if truthy_opt (homepage_url camp) then homepage_url camp
     else camp_uri bubble)
    (camp_other bubble).

Definition camp_callback (bubbles : list CampBubble) (camp : CampInfo)
    (index : nat) : list CampBubble :=
  if (index <? length bubbles)%nat then
    match bubbles !! index with
    | Some bubble => <[index := write_camp camp bubble]> bubbles
    | None => bubbles
    end
  else bubbles.

Variable flexCamp : Template CampBubble.

Definition createCampFlexMessage (campInfo : list CampInfo)
    : FlexMessage CampBubble :=
  let template := flexCamp in
  mkFlexMessage (js "キャンプ場情報")
    (mkTemplate (forEach camp_callback campInfo (contents template))
                (template_other template)).

(** What the callback of [createYaychiFlexMessage] writes in a bubble. *)
Definition write_yaychi (info : YaychiInfo) (bubble : YaychiBubble)
    : YaychiBubble :=
  mkYaychiBubble (yaychi_name info) (spot info) (description info)
    (yaychi_other bubble).

Definition yaychi_callback (bubbles : list YaychiBubble) (info : YaychiInfo)
    (index : nat) : list YaychiBubble :=
  if (index <? length bubbles)%nat then
    match bubbles !! index with
    | Some bubble => <[index := write_yaychi info bubble]> bubbles
    | None => bubbles
    end
  else bubbles.

Variable flexYaychi : Template YaychiBubble.

Definition createYaychiFlexMessage (yaychiInfo : list YaychiInfo)
    : FlexMessage YaychiBubble :=
  let template := flexYaychi in
  mkFlexMessage (js "野営地情報")
    (mkTemplate (forEach yaychi_callback yaychiInfo (contents template))
                (template_other template)).

End Composers.

(** The shape shared by the callbacks of the two composers: bubble [index]
    is rewritten by [write r] when there is one. *)
Definition guarded_write {R B : Type} (write : R -> B -> B)
    (bubbles : list B) (r : R) (index : nat) : list B :=
  if (index <? length bubbles)%nat then
    match bubbles !! index with
    | Some bubble => <[index := write r bubble]> bubbles
    | None => bubbles
    end
  else bubbles.

Arguments CampBubble Other : clear implicits.
Arguments YaychiBubble Other : clear implicits.
Arguments Template Other B : clear implicits.
Arguments FlexMessage Other B : clear implicits.
Arguments mkTemplate {Other B} _ _.
Arguments contents {Other B} _.
Arguments template_other {Other B} _.
Arguments mkFlexMessage {Other B} _ _.
Arguments altText {Other B} _.
Arguments flex_contents {Other B} _.

(** ** Values read back from the table *)

#[local] Set Warnings "-register-all".

(** The values that flow through the collected data: a field of a parsed
    object is a string, an object, or [undefined] when it is missing. *)
Inductive JsVal :=
| VUndefined
| VString (s : jsstring)
| VObject (fields : list (string * JsVal)).

(** [o[key]] for the fields of the object itself.  The members that every
    object inherits ([constructor], [toString], ...) are not modelled: the
    code asks for [region], [date], [prefecture], [location] and [duration]
    only. *)
Fixpoint get_field (fields : list (string * JsVal)) (key : string) : JsVal :=
  match fields with
  | [] => VUndefined
  | (k, v) :: r => if String.eqb k key then v else get_field r key
  end.

(** [v.key] on a value that is an object. *)
Definition field_of (v : JsVal) (key : string) : JsVal :=
  match v with
  | VObject fields => get_field fields key
  | _ => VUndefined
  end.

(** [JSON.parse(JSON.stringify(v))]: a field whose value is [undefined] is
    not written. *)
Fixpoint json_clone (v : JsVal) : JsVal :=
  match v with
  | VObject fields =>
    VObject
      ((fix clone_fields (l : list (string * JsVal)) :=
          match l with
          | [] => []
          | (k, VUndefined) :: r => clone_fields r
          | (k, x) :: r => (k, json_clone x) :: clone_fields r
          end) fields)
  | _ => v
  end.

Definition json_clone_fields (fields : list (string * JsVal))
    : list (string * JsVal) :=
  match json_clone (VObject fields) with
  | VObject fs => fs
  | _ => []
  end.

(** [`${v}`] *)
Definition to_str (v : JsVal) : jsstring :=
  match v with
  | VUndefined => js "undefined"
  | VString s => s
  | VObject _ => js "[object Object]"
  end.

(** [arr.join(sep)] *)
Fixpoint join (sep : jsstring) (arr : list jsstring) : jsstring :=
  match arr with
  | [] => []
  | [x] => x
  | x :: r => x ++ sep ++ join sep r
  end.

(** ** The world: the table [Users] and the calls issued *)

(** An item of the table [Users] under its key [userId]: the attribute
    [state] and the attribute [data].  [data] holds the JSON text of an
    object; the item keeps the object that text denotes. *)
Record Item := mkItem {
  state : option jsstring;
  data : option (list (string * JsVal))
}.

Inductive Role := system | user.

Record ChatRequest := mkChatRequest {
  messages : list (Role * jsstring);
  max_tokens : option nat
}.

(** The events the handler tells apart; [source.userId] is taken to be
    present, as the code asserts ([userId!]). *)
Inductive WebhookEvent :=
| FollowEvent (userId replyToken : jsstring)
| TextMessageEvent (userId replyToken text : jsstring)
| OtherEvent.

Record APIGatewayProxyResult := mkResult {
  statusCode : nat;
  body : string
}.

(** What the entry points take from their environment: the signature check
    of the SDK, the channel secret and the decoding of the body.
    [JSON_parse_events] is [JSON.parse(body).events]: [None] when
    [JSON.parse] throws, [Some None] when the body has no [events]. *)
Record Gateway := mkGateway {
  validateSignature : jsstring -> jsstring -> jsstring -> bool;
  CHANNEL_SECRET : jsstring;
  JSON_parse_events : jsstring -> option (option (list WebhookEvent))
}.

(** The invocation: [event.body] and [event.headers]. *)
Record LambdaEvent := mkLambdaEvent {
  event_body : option jsstring;
  headers : gmap string jsstring
}.

Section World.

Context {Other : Type}.

(** A call to an external service. *)
Inductive Call :=
| PutItemCommand (uid : jsstring) (item : Item)
| GetItemCommand (uid : jsstring)
| replyMessage (replyToken text : jsstring)
| pushTextMessage (uid text : jsstring)
| pushCampFlex (uid : jsstring) (m : FlexMessage Other (CampBubble Other))
| pushYaychiFlex (uid : jsstring) (m : FlexMessage Other (YaychiBubble Other))
| chatCompletion (req : ChatRequest).

(** A call and whether it returned ([true]) or threw ([false]). *)
Record Event := mkEvent { call : Call; returned : bool }.

Record World := mkWorld {
  table : gmap jsstring Item;
  trace : list Event
}.

(** What the logic does not decide: the outcome of the calls to LINE and
    to the completion API (each may depend on all that happened before),
    and the two templates. *)
Record Services := mkServices {
  line_returns : list Event -> Call -> bool;
  openai_create : list Event -> ChatRequest -> option (option jsstring);
  flexCamp : Template Other (CampBubble Other);
  flexYaychi : Template Other (YaychiBubble Other)
}.

(** *** Computations: state passing with exceptions *)

Inductive Res (A : Type) :=
| Ok (a : A)
| Throw.
Arguments Ok {A} _.
Arguments Throw {A}.

Definition M (A : Type) : Type := World -> Res A * World.

Definition ret {A} (a : A) : M A := fun w => (Ok a, w).

Definition bind {A B} (m : M A) (k : A -> M B) : M B :=
  fun w => match m w with
           | (Ok a, w') => k a w'
           | (Throw, w') => (Throw, w')
           end.

(** [try { body } catch (error) { handler }] *)
Definition try_catch {A} (body handler : M A) : M A :=
  fun w => match body w with
           | (Ok a, w') => (Ok a, w')
           | (Throw, w') => handler w'
           end.

Definition record (c : Call) (r : bool) (w : World) : World :=
  mkWorld (table w) (trace w ++ [mkEvent c r]).


(** *** The services *)

Variable sv : Services.

(** [ddb.send(new PutItemCommand({TableName: 'Users', Item}))]: the item
    replaces whatever the table held under the key.  The table is taken to
    answer every command; a failure of the table is outside the model. *)
Definition ddb_put (uid : jsstring) (item : Item) : M unit :=
  fun w =>
    (Ok tt,
     mkWorld (<[uid := item]> (table w))
             (trace w ++ [mkEvent (PutItemCommand uid item) true])).

(** [ddb.send(new GetItemCommand({TableName: 'Users', Key}))] *)
Definition ddb_get (uid : jsstring) : M (option Item) :=
  fun w => (Ok (table w !! uid), record (GetItemCommand uid) true w).

(** A call to the LINE client: it returns or throws, as the service
    decides. *)
Definition line_call (c : Call) : M unit :=
  fun w =>
    if line_returns sv (trace w) c
    then (Ok tt, record c true w)
    else (Throw, record c false w).

(** [(await openai.chat.completions.create(req)).choices[0].message.content]:
    the call throws, or gives a content that may be [null].  Every caller
    reads the content right after the call, so a response without a first
    choice, on which that read throws, is the throwing outcome too. *)
Definition chat_content (req : ChatRequest) : M (option jsstring) :=
  fun w =>
    match openai_create sv (trace w) req with
    | Some content => (Ok content, record (chatCompletion req) true w)
    | None => (Throw, record (chatCompletion req) false w)
    end.

(** [for (const x of arr) { await f(x) }] *)
Fixpoint for_of {A} (arr : list A) (f : A -> M unit) : M unit :=
  match arr with
  | [] => ret tt
  | x :: r => bind (f x) (fun _ => for_of r f)
  end.

Definition reply (replyToken text : jsstring) : M unit :=
  line_call (replyMessage replyToken text).

(** The first loop of [pushMessage], from index [i]: the pieces of at most
    5000 code units.  The loop ends on [i < text.length]; [fuel] bounds
    its iterations. *)
Fixpoint split_messages (fuel i : nat) (text : jsstring) : list jsstring :=
  match fuel with
  | O => []
  | S fuel' =>
    if (i <? length text)%nat
    then take 5000 (drop i text) :: split_messages fuel' (i + 5000) text
    else []
  end.

Definition pushMessage (uid text : jsstring) : M unit :=
  let messages := split_messages (length text) 0 text in
  for_of messages (fun message => line_call (pushTextMessage uid message)).

Definition saveUserId (uid : jsstring) : M unit :=
  ddb_put uid (mkItem None None).

Definition getState (uid : jsstring) : M (option jsstring) :=
  bind (ddb_get uid) (fun res =>
  ret (match res with
       | Some item => state item
       | None => None
       end)).

Definition putState (uid st : jsstring) : M unit :=
  ddb_put uid (mkItem (Some st) None).

Definition putStateWithData (uid st : jsstring)
    (d : list (string * JsVal)) : M unit :=
  ddb_put uid (mkItem (Some st) (Some (json_clone_fields d))).

(** [getStateData(uid, key)]; [key] is [None] when the argument is left
    out. *)
Definition getStateData (uid : jsstring) (key : option string) : M JsVal :=
  bind (ddb_get uid) (fun res =>
  match res with
  | Some (mkItem _ (Some d)) =>
    match key with
    | Some k => if negb (String.eqb k "") then ret (get_field d k)
                else ret (VObject d)
    | None => ret (VObject d)
    end
  | _ => ret (VObject [])
  end).

Definition clearState (uid : jsstring) : M unit :=
  ddb_put uid (mkItem None None).

Notation "'await' x <- c1 ; c2" := (bind c1 (fun x => c2))
  (at level 10, x name, c1 at level 100, c2 at level 200).
Notation "'await_' c1 ; c2" := (bind c1 (fun _ => c2))
  (at level 10, c1 at level 100, c2 at level 200).

(** [content || fallback] *)
Definition or_else (content : option jsstring) (fallback : jsstring)
    : jsstring :=
  match content with
  | Some c => if truthy c then c else fallback
  | None => fallback
  end.

Definition user_prompt (content : jsstring) : ChatRequest :=
  mkChatRequest [(user, content)] None.

(** *** The terminal actions *)

Definition camp_error_text : jsstring :=
  js "キャンプ場の情報取得中にエラーが発生しました。".

(** The [try] block of [handleCampInfo]. *)
Definition handleCampInfo_try (uid : jsstring) (region date : JsVal)
    (conditions : jsstring) : M unit :=
  await content <- chat_content (user_prompt
    (to_str region ++ js "の" ++ to_str date ++ js "で、条件「"
     ++ conditions
     ++ js "」を満たすキャンプ場を3つ検索し、名前のみリストで出力してください。"));
  let campInfo := parseResponse content in
  if (length campInfo =? 0)%nat then
    pushMessage uid
      (js "申し訳ありません。キャンプ場の情報を取得できませんでした。")
  else
    let flexMessage := createCampFlexMessage (flexCamp sv) campInfo in
    await_ pushMessage uid (js "以下のキャンプ場を見つけました！");
    await_ line_call (pushCampFlex uid flexMessage);
    await detail <- chat_content (user_prompt (lines_js
      [join (js "、") (map camp_name campInfo)
         ++ js "について、それぞれ以下の項目を書いてください：";
       js "1.キャンプ場名";
       js "2.市区町村";
       js "3.キャンプ場設備";
       js "この形式以外は書かないでください。"]));
    pushMessage uid (or_else detail (js "詳細情報を取得できませんでした。")).

Definition handleCampInfo (uid replyToken : jsstring) (region date : JsVal)
    (conditions : jsstring) : M unit :=
  await_ reply replyToken
    (to_str region ++ js "の" ++ to_str date
     ++ js "に行きたいキャンプ場を、条件「" ++ conditions
     ++ js "」で調べています...");
  try_catch (handleCampInfo_try uid region date conditions)
            (pushMessage uid camp_error_text).

Definition yaychi_error_text : jsstring :=
  js "野営地の情報取得中にエラーが発生しました。".

(** The [try] block of [handleYaychiInfo]. *)
Definition handleYaychiInfo_try (uid : jsstring) (prefecture : JsVal)
    (conditions : jsstring) : M unit :=
  await content <- chat_content (user_prompt (lines_js
    [to_str prefecture ++ js "で野営ができる市区町村を3つ調べて、条件「"
       ++ conditions
       ++ js "」に合うものを選んでください。それぞれの市区町村について以下の情報を教えてください：";
     js "1. 市区町村名";
     js "2. おすすめの野営スポット";
     js "3. そのスポットの特徴や注意点";
     js "回答は以下のフォーマットで提供してください：";
     js "1. [市区町村名]";
     js "おすすめスポット: [スポット名]";
     js "特徴・注意点: [簡単な説明]"]));
  let yaychiInfo := parseYaychiResponse (or_else content []) in
  if (length yaychiInfo =? 0)%nat then
    pushMessage uid
      (js "申し訳ありません。野営地の情報を取得できませんでした。")
  else
    let flexMessage := createYaychiFlexMessage (flexYaychi sv) yaychiInfo in
    await_ pushMessage uid
      (to_str prefecture ++ js "で野営可能な場所が見つかりました！");
    line_call (pushYaychiFlex uid flexMessage).

Definition handleYaychiInfo (uid replyToken : jsstring) (prefecture : JsVal)
    (conditions : jsstring) : M unit :=
  await_ reply replyToken
    (to_str prefecture ++ js "で、条件「" ++ conditions
     ++ js "」に合う野営ができる場所を調べています...");
  try_catch (handleYaychiInfo_try uid prefecture conditions)
            (pushMessage uid yaychi_error_text).

Definition item_error_text : jsstring :=
  js "持ち物の情報取得中にエラーが発生しました。".

(** [`${content}`] of a content that may be [null]. *)
Definition content_str (content : option jsstring) : jsstring :=
  match content with
  | Some c => c
  | None => js "null"
  end.

(** The body of the loop over [items.slice(0, 3)]. *)
Definition suggest_product (uid : jsstring) (item : ItemInfo) : M unit :=
  await searchRes <- chat_content (user_prompt
    (js "「" ++ item_name item
     ++ js " おすすめ 人気」で検索し、評価の高いアイテムを1つ見つけて、その商品名と50文字以内の特徴を教えてください。"));
  pushMessage uid
    (item_name item ++ js "のおすすめ商品：" ++ LF :: content_str searchRes).

(** The [try] block of [handleItemSuggestion]. *)
Definition handleItemSuggestion_try (uid : jsstring)
    (location duration : JsVal) (conditions : jsstring) : M unit :=
  await content <- chat_content (user_prompt
    (to_str location ++ js "に" ++ to_str duration
     ++ js "の期間で行く際に必要な持ち物を、条件「" ++ conditions
     ++ js "」を考慮して10個程度リストアップしてください。それぞれの持ち物について、20文字程度の簡潔な説明を加えてください。"));
  let items := parseItemResponse (or_else content []) in
  if (length items =? 0)%nat then
    pushMessage uid
      (js "申し訳ありません。持ち物の情報を取得できませんでした。")
  else
    let itemList :=
      join [LF]
        (map (fun item => js "- " ++ item_name item ++ js ": "
                          ++ item_description item) items) in
    await_ pushMessage uid
      (js "以下の持ち物をおすすめします：" ++ LF :: LF :: itemList);
    for_of (take 3 items) (suggest_product uid).

Definition handleItemSuggestion (uid replyToken : jsstring)
    (location duration : JsVal) (conditions : jsstring) : M unit :=
  await_ reply replyToken
    (to_str location ++ js "に" ++ to_str duration
     ++ js "の期間で行く際の持ち物を、条件「" ++ conditions
     ++ js "」で提案します...");
  try_catch (handleItemSuggestion_try uid location duration conditions)
            (pushMessage uid item_error_text).

Definition handleGeneralMessage (replyToken text : jsstring) : M unit :=
  try_catch
    (await content <- chat_content (mkChatRequest
       [(system, js "あなたは「まるキャン」というキャンプの専門家です。キャンプや野営地の質問に答えてください。それ以外の質問には回答しないようにしてください。文末には時々!をつけて、明るいイメージで会話してください。");
        (user, text)]
       (Some 200%nat));
     reply replyToken
       (or_else content (js "すみません、うまく回答できませんでした。")))
    (reply replyToken
       (js "すみません、エラーが発生しました。もう一度お試しください。")).

(** *** The conversation state machine *)

Definition OK : APIGatewayProxyResult := mkResult 200 "OK".

Definition eqb_js (a b : jsstring) : bool := bool_decide (a = b).

Definition handleStateMessage (uid replyToken text st : jsstring) : M unit :=
  if eqb_js st (js "awaiting_region_camp") then
    await_ putStateWithData uid (js "awaiting_date_camp")
             [("region"%string, VString text)];
    reply replyToken (js "行きたい日にちを教えてください。")
  else if eqb_js st (js "awaiting_date_camp") then
    await campRegion <- getStateData uid (Some "region"%string);
    await_ putStateWithData uid (js "awaiting_conditions_camp")
             [("region"%string, campRegion); ("date"%string, VString text)];
    reply replyToken
      (js "希望する条件はありますか？（例：ペットOK、温泉あり、など）")
  else if eqb_js st (js "awaiting_conditions_camp") then
    await campData <- getStateData uid None;
    await_ clearState uid;
    handleCampInfo uid replyToken (field_of campData "region")
      (field_of campData "date") text
  else if eqb_js st (js "awaiting_prefecture_yaychi") then
    await_ putStateWithData uid (js "awaiting_conditions_yaychi")
             [("prefecture"%string, VString text)];
    reply replyToken
      (js "希望する条件はありますか？（例：川の近く、山の中、など）")
  else if eqb_js st (js "awaiting_conditions_yaychi") then
    await yaychiData <- getStateData uid None;
    await_ clearState uid;
    handleYaychiInfo uid replyToken (field_of yaychiData "prefecture") text
  else if eqb_js st (js "awaiting_location_items") then
    await_ putStateWithData uid (js "awaiting_duration_items")
             [("location"%string, VString text)];
    reply replyToken (js "滞在期間を教えてください。")
  else if eqb_js st (js "awaiting_duration_items") then
    await itemLocation <- getStateData uid (Some "location"%string);
    await_ putStateWithData uid (js "awaiting_conditions_items")
             [("location"%string, itemLocation);
              ("duration"%string, VString text)];
    reply replyToken
      (js "その他の特別な条件があれば教えてください。（例：雨の可能性がある、子供連れ、など）")
  else if eqb_js st (js "awaiting_conditions_items") then
    await itemData <- getStateData uid None;
    await_ clearState uid;
    handleItemSuggestion uid replyToken (field_of itemData "location")
      (field_of itemData "duration") text
  else
    await_ clearState uid;
    handleGeneralMessage replyToken text.

(** The branch [if (!state)]: the choice in the menu. *)
Definition menu_selection (uid replyToken text : jsstring)
    : M APIGatewayProxyResult :=
  if eqb_js text (js "きゃんぷ場調べ") then
    await_ putState uid (js "awaiting_region_camp");
    await_ reply replyToken (js "調べたい地域を教えてください。");
    ret OK
  else if eqb_js text (js "野営地調べ") then
    await_ putState uid (js "awaiting_prefecture_yaychi");
    await_ reply replyToken (js "野営したい都道府県を教えてください。");
    ret OK
  else if eqb_js text (js "持ち物提案") then
    await_ putState uid (js "awaiting_location_items");
    await_ reply replyToken (js "行く場所を教えてください。");
    ret OK
  else
    await_ handleGeneralMessage replyToken text;
    ret OK.

(** The handler from [const [e] = events] on: the logic on the first
    event. *)
Definition handle_first (e : WebhookEvent) : M APIGatewayProxyResult :=
  match e with
  | FollowEvent uid replyToken =>
    await_ saveUserId uid;
    await_ reply replyToken (js "友達追加ありがとうございます🚀");
    ret OK
  | TextMessageEvent uid replyToken text =>
    await_ saveUserId uid;
    await st <- getState uid;
    if negb (truthy_opt st) then menu_selection uid replyToken text
    else
      await_ handleStateMessage uid replyToken text (default [] st);
      ret OK
  | OtherEvent => ret (mkResult 200 "ignored")
  end.

(** [a ?? b] on two header lookups. *)
Definition nullish (a b : option jsstring) : option jsstring :=
  match a with
  | Some _ => a
  | None => b
  end.

(** [event.headers['x-line-signature'] ?? event.headers['X-Line-Signature']] *)
Definition signature_of (event : LambdaEvent) : option jsstring :=
  nullish (headers event !! "x-line-signature"%string)
          (headers event !! "X-Line-Signature"%string).

Variable gw : Gateway.

Definition handler (event : LambdaEvent) : M APIGatewayProxyResult :=
  if negb (truthy_opt (event_body event)) then ret (mkResult 200 "no body")
  else
    let event_body := default [] (event_body event) in
    let signature := signature_of event in
    if negb (truthy_opt signature)
       || negb (validateSignature gw event_body (CHANNEL_SECRET gw)
                  (default [] signature))
    then ret (mkResult 401 "signature validation failed")
    else
      match JSON_parse_events gw event_body with
      | None => fun w => (Throw, w)
      | Some events =>
        match default [] events with
        | [] => ret (mkResult 200 "no events")
        | e :: _ => handle_first e
        end
      end.

(** *** The echo endpoint of [src/handler.ts] *)

Definition webhook_step (webhookEvent : WebhookEvent) : M unit :=
  match webhookEvent with
  | TextMessageEvent _ replyToken text =>
    line_call (replyMessage replyToken text)
  | _ => ret tt
  end.

Definition webhook (event : LambdaEvent) : M APIGatewayProxyResult :=
  let signature := headers event !! "x-line-signature"%string in
  let body := or_else (event_body event) [] in
  if negb (truthy_opt signature)
     || negb (validateSignature gw body (CHANNEL_SECRET gw)
                (default [] signature))
  then ret (mkResult 401 "Unauthorized")
  else
    match JSON_parse_events gw body with
    | Some (Some events) =>
      await_ for_of events webhook_step;
      ret OK
    | _ => fun w => (Throw, w)
    end.

End World.

Arguments Call Other : clear implicits.
Arguments Event Other : clear implicits.
Arguments World Other : clear implicits.
Arguments Services Other : clear implicits.
Arguments M Other A : clear implicits.
Arguments Ok {A} _.
Arguments Throw {A}.


(** ** The parsers, line by line

    What each of the two loops that push at most one record per line
    produces for one line. *)

Definition camp_of_line (line : jsstring) : option CampInfo :=
  let line := trim line in
  if (0 <? length line)%nat && numbered123 line
  then Some (mkCampInfo (trim (strip_number line)) None)
  else None.

Definition item_of_line (line : jsstring) : option ItemInfo :=
  let trimmedLine := trim line in
  if matches_number_dot trimmedLine then
    match split trimmedLine [COLON] with
    | p0 :: p1 :: _ => Some (mkItemInfo (trim (strip_number p0)) (trim p1))
    | _ => None
    end
  else None.

(** Four numbered lines, each with a colon. *)
Definition four_items : jsstring :=
  lines_js [js "1. Tent: shelter"; js "2. Stove: cooking";
            js "3. Lamp: light"; js "4. Rope: tying"].

(** The gateway [gw] with every body decoded to [events]. *)
Definition with_events (gw : Gateway) (events : list WebhookEvent) : Gateway :=
  mkGateway (validateSignature gw) (CHANNEL_SECRET gw)
    (fun _ => Some (Some events)).

(** ** Reading a trace *)

Section Traces.

Context {Other : Type}.

Definition is_put (c : Call Other) : bool :=
  match c with
  | PutItemCommand _ _ => true
  | _ => false
  end.

Definition is_store (c : Call Other) : bool :=
  match c with
  | PutItemCommand _ _ | GetItemCommand _ => true
  | _ => false
  end.

Definition is_reply (c : Call Other) : bool :=
  match c with
  | replyMessage _ _ => true
  | _ => false
  end.

(** A call to the completion API or a push to LINE. *)
Definition generation_or_push (c : Call Other) : bool :=
  match c with
  | chatCompletion _ | pushTextMessage _ _ | pushCampFlex _ _
  | pushYaychiFlex _ _ => true
  | _ => false
  end.

(** A call to LINE or to the completion API. *)
Definition outbound (c : Call Other) : bool := negb (is_store c).

Definition all_returned (evs : list (Event Other)) : Prop :=
  Forall (fun e => returned e = true) evs.

Definition all_calls (P : Call Other -> bool) (evs : list (Event Other))
    : Prop :=
  Forall (fun e => P (call e) = true) evs.

(** [m] leaves the table as it is and issues only calls that satisfy
    [P]. *)
Definition talks (P : Call Other -> bool) {A} (m : M Other A) : Prop :=
  forall w, exists evs,
    snd (m w) = mkWorld (table w) (trace w ++ evs) /\ all_calls P evs.

(** [m] talks, returns when all its calls returned, and throws when its
    last call threw, all the calls before having returned. *)
Definition stops_at_failure (P : Call Other -> bool) {A} (m : M Other A)
    : Prop :=
  forall w, exists evs,
    snd (m w) = mkWorld (table w) (trace w ++ evs)
    /\ all_calls P evs
    /\ match fst (m w) with
       | Ok _ => all_returned evs
       | Throw =>
         exists pre c,
           evs = pre ++ [mkEvent c false] /\ all_returned pre
       end.

Definition some_put (evs : list (Event Other)) : Prop :=
  Exists (fun e => is_put (call e) = true) evs.

Definition no_put (evs : list (Event Other)) : Prop :=
  Forall (fun e => is_put (call e) = false) evs.

(** [m] first calls the table, then LINE and the completion API. *)
Definition stores_then_talks {A} (m : M Other A) : Prop :=
  forall w, exists st evs,
    trace (snd (m w)) = trace w ++ st ++ evs
    /\ all_calls is_store st /\ all_calls outbound evs.

(** The same, with a write among the calls to the table. *)
Definition writes_then_talks {A} (m : M Other A) : Prop :=
  forall w, exists st evs,
    trace (snd (m w)) = trace w ++ st ++ evs
    /\ all_calls is_store st /\ some_put st /\ all_calls outbound evs.

(** What the specification asks of a terminal action [action] of user
    [uid] with apology [apology], as far as the code provides it: either
    every call returned and so does the action; or the acknowledging
    reply, the first call, threw, and the action throws; or a call to the
    completion API or a push threw, exactly one push of the apology
    follows it and nothing else, and the action returns if that push
    returned and throws if it threw. *)
Definition caught_inside (uid apology : jsstring) (action : M Other unit)
    : Prop :=
  forall w, exists evs,
    snd (action w) = mkWorld (table w) (trace w ++ evs)
    /\ ((fst (action w) = Ok tt /\ all_returned evs)
        \/ (fst (action w) = Throw
            /\ exists replyToken ack,
                 evs = [mkEvent (replyMessage replyToken ack) false])
        \/ (exists pre c b,
              evs = pre ++ [mkEvent c false;
                            mkEvent (pushTextMessage uid apology) b]
              /\ all_returned pre
              /\ generation_or_push c = true
              /\ fst (action w) = if b then Ok tt else Throw)).

End Traces.

(** ** Scenarios *)

Module Scenario.

Definition camp3 : Template unit (CampBubble unit) :=
  mkTemplate
    [mkCampBubble (Some (js "name 1")) (Some (js "https://example.com/1")) tt;
     mkCampBubble (Some (js "name 2")) (Some (js "https://example.com/2")) tt;
     mkCampBubble (Some (js "name 3")) (Some (js "https://example.com/3")) tt]
    tt.

Definition yaychi3 : Template unit (YaychiBubble unit) :=
  mkTemplate
    [mkYaychiBubble (Some (js "name 1")) (Some (js "spot 1")) (Some (js "note 1")) tt;
     mkYaychiBubble (Some (js "name 2")) (Some (js "spot 2")) (Some (js "note 2")) tt;
     mkYaychiBubble (Some (js "name 3")) (Some (js "spot 3")) (Some (js "note 3")) tt]
    tt.

(** Services whose LINE calls return when [line] says so and whose
    completion always answers two numbered lines. *)
Definition services (line : Call unit -> bool) : Services unit :=
  mkServices (fun _ c => line c)
    (fun _ _ => Some (Some (lines_js [js "1. A"; js "2. B"])))
    camp3 yaychi3.

(** A gateway that accepts every signature and decodes every body to
    [events]. *)
Definition gateway (events : list WebhookEvent) : Gateway :=
  mkGateway (fun _ _ _ => true) (js "secret") (fun _ => Some (Some events)).

Definition line_up (c : Call unit) : bool := true.
Definition line_down (c : Call unit) : bool := false.
Definition replies_only (c : Call unit) : bool := is_reply c.

Definition U : jsstring := js "U1".

Definition start : World unit := mkWorld ∅ [].

(** A user in the middle of the camp flow. *)
Definition midflow : World unit :=
  mkWorld
    {[ U := mkItem (Some (js "awaiting_date_camp"))
                   (Some [("region"%string, VString (js "Tokyo"))]) ]}
    [].

Definition invocation : LambdaEvent :=
  mkLambdaEvent (Some (js "{...}"))
    {[ "x-line-signature"%string := js "signature" ]}.

Definition text_event (replyToken text : jsstring) : WebhookEvent :=
  TextMessageEvent U replyToken text.

End Scenario.

(** ** Further readings of texts and traces *)

(** A text that [trim] leaves as it is. *)
Definition trimmed (s : jsstring) : Prop := trim s = s.

Definition trimmed_opt (o : option jsstring) : Prop :=
  match o with
  | Some s => trimmed s
  | None => True
  end.

(** Collected data all of whose fields are strings. *)
Definition strings_only (d : list (string * JsVal)) : Prop :=
  Forall (fun kv => exists s, snd kv = VString s) d.

(** The names that every object inherits from [Object.prototype]. *)
Definition object_prototype_names : list string :=
  ["constructor"; "__proto__"; "hasOwnProperty"; "isPrototypeOf";
   "propertyIsEnumerable"; "toLocaleString"; "toString"; "valueOf";
   "__defineGetter__"; "__defineSetter__"; "__lookupGetter__";
   "__lookupSetter__"]%string.

(** A key that [getStateData] looks up among the fields of the data: it is
    not empty and is no inherited name. *)
Definition ordinary_key (key : string) : Prop :=
  key <> ""%string /\ key ∉ object_prototype_names.

(** The fields of an object written with ordinary names: no name twice and
    no inherited name. *)
Definition plain_fields (d : list (string * JsVal)) : Prop :=
  NoDup (map fst d) /\ Forall (fun kv => fst kv ∉ object_prototype_names) d.

(** The persona of the general message. *)
Definition general_persona : jsstring :=
  js "あなたは「まるキャン」というキャンプの専門家です。キャンプや野営地の質問に答えてください。それ以外の質問には回答しないようにしてください。文末には時々!をつけて、明るいイメージで会話してください。".

(** The user an event is about. *)
Definition event_user (e : WebhookEvent) : option jsstring :=
  match e with
  | FollowEvent uid _ | TextMessageEvent uid _ _ => Some uid
  | OtherEvent => None
  end.

(** The states that [handleStateMessage] has a case for. *)
Definition flow_states : list jsstring :=
  [js "awaiting_region_camp"; js "awaiting_date_camp";
   js "awaiting_conditions_camp"; js "awaiting_prefecture_yaychi";
   js "awaiting_conditions_yaychi"; js "awaiting_location_items";
   js "awaiting_duration_items"; js "awaiting_conditions_items"].

(** [m] changes no item of the table but the one of [uid]. *)
Definition writes_only_to {Other A : Type} (uid : jsstring) (m : M Other A)
    : Prop :=
  forall (w : World Other) (other : jsstring),
    other <> uid -> table (snd (m w)) !! other = table w !! other.

Section MoreTraces.

Context {Other : Type}.

Definition is_chat (c : Call Other) : bool :=
  match c with
  | chatCompletion _ => true
  | _ => false
  end.

(** The number of calls to the completion API among the events. *)
Definition chat_calls (evs : list (Event Other)) : nat :=
  length (filter (fun e => is_chat (call e) = true) evs).

(** [m] leaves the table as it is and calls the completion API at most [n]
    times. *)
Definition generates_at_most (n : nat) {A} (m : M Other A) : Prop :=
  forall w, exists evs,
    snd (m w) = mkWorld (table w) (trace w ++ evs)
    /\ (chat_calls evs <= n)%nat.

(** [action] leaves the table as it is; its first call is the reply
    [ack] on [replyToken]; every other call goes to the completion API or
    is a push; and when the reply throws nothing follows and the action
    throws. *)
Definition replies_once (replyToken ack : jsstring) (action : M Other unit)
    : Prop :=
  forall w, exists b rest,
    snd (action w)
    = mkWorld (table w)
        (trace w ++ mkEvent (replyMessage replyToken ack) b :: rest)
    /\ all_calls generation_or_push rest
    /\ (if b then True else rest = [] /\ fst (action w) = Throw).

End MoreTraces.

(** The invocation passes the first two tests of [handler]: it has a body
    that is not empty, and a signature that is not empty and that the SDK
    accepts for this body. *)
Definition accepted (gw : Gateway) (event : LambdaEvent) : Prop :=
  truthy_opt (event_body event) = true
  /\ truthy_opt (signature_of event) = true
  /\ validateSignature gw (default [] (event_body event)) (CHANNEL_SECRET gw)
       (default [] (signature_of event)) = true.


(** The three phrases of the menu. *)
Definition menu_phrases : list jsstring :=
  [js "きゃんぷ場調べ"; js "野営地調べ"; js "持ち物提案"].

(** ** More scenarios *)

(** An invocation with no body and no header. *)
Definition bare_invocation : LambdaEvent := mkLambdaEvent None ∅.

(** A gateway whose SDK accepts the signature [valid] only. *)
Definition checking_gateway (events : list WebhookEvent) : Gateway :=
  mkGateway (fun _ _ signature => eqb_js signature (js "valid"))
    (js "secret") (fun _ => Some (Some events)).

(** An invocation whose [x-line-signature] is empty and whose
    [X-Line-Signature] is valid. *)
Definition shadowed_invocation : LambdaEvent :=
  mkLambdaEvent (Some (js "{...}"))
    {[ "x-line-signature"%string := [];
       "X-Line-Signature"%string := js "valid" ]}.

(** Another user. *)
Definition U2 : jsstring := js "U2".

(** A push of a Flex message carries as many bubbles as the template of its
    kind; any other call passes. *)
Definition flex_sized {Other : Type} (sv : Services Other) (c : Call Other)
    : bool :=
  match c with
  | pushCampFlex _ m =>
    (length (contents (flex_contents m)) =? length (contents (flexCamp sv)))%nat
  | pushYaychiFlex _ m =>
    (length (contents (flex_contents m))
     =? length (contents (flexYaychi sv)))%nat
  | _ => true
  end.

(** The tests of the state machine on two literal texts, decided. *)
Ltac decide_eqb_js :=
  repeat match goal with
  | |- context [eqb_js (js ?a) (js ?b)] =>
    first [ replace (eqb_js (js a) (js b)) with true
              by (vm_compute; reflexivity)
          | replace (eqb_js (js a) (js b)) with false
              by (vm_compute; reflexivity) ]
  end.

(** * Properties *)

(** ** Parsers *)

Section FoldPush.

Context {A : Type} (f : jsstring -> option A).

(** A loop that pushes [f line] when it is defined collects the records
    of the lines in order. *)
Lemma fold_push (step : list A -> jsstring -> list A) :
  (forall acc line,
      step acc line = match f line with
                      | Some x => acc ++ [x]
                      | None => acc
                      end) ->
  forall lines acc, fold_left step lines acc = acc ++ omap f lines.
Proof.
  intros Hstep lines.
  induction lines as [|line lines IH]; intros acc; simpl.
  - by rewrite app_nil_r.
  - rewrite IH, Hstep. destruct (f line); simpl.
    + by rewrite <- app_assoc.
    + done.
Qed.

Lemma length_omap_le (lines : list jsstring) :
  (length (omap f lines) <= length lines)%nat.
Proof.
  induction lines as [|line lines IH]; [simpl; lia|].
  change (omap f (line :: lines))
    with (match f line with
          | Some x => x :: omap f lines
          | None => omap f lines
          end).
  destruct (f line); simpl; lia.
Qed.

End FoldPush.

Lemma parseResponse_lines (text : jsstring) :
  parseResponse (Some text) = omap camp_of_line (split text [LF]).
Proof.
  unfold parseResponse.
  rewrite (fold_push camp_of_line); [done|].
  intros acc line. unfold parseResponse_step, camp_of_line.
  by destruct (_ && _).
Qed.

Lemma parseItemResponse_lines (text : jsstring) :
  parseItemResponse text = omap item_of_line (split text [LF]).
Proof.
  unfold parseItemResponse.
  rewrite (fold_push item_of_line); [done|].
  intros acc line. unfold parseItem_step, item_of_line, split_limit.
  destruct (matches_number_dot _); [|done].
  destruct (split (trim line) [COLON]) as [|p0 [|p1 [|p2 r]]]; done.
Qed.

(** C4, as stated, fails: the item parser returns four records for four
    numbered lines (and so does the camp parser when a number is repeated). *)
Lemma parsers_not_capped_at_3 :
  length (parseItemResponse four_items) = 4%nat
  /\ ~ (length (parseItemResponse four_items) <= 3)%nat
  /\ length (parseResponse
               (Some (lines_js [js "1. A"; js "2. B"; js "3. C"; js "1. D"])))
     = 4%nat.
Proof.
  assert (H : length (parseItemResponse four_items) = 4%nat)
    by (vm_compute; reflexivity).
  split; [exact H|]. split; [rewrite H; lia|].
  vm_compute; reflexivity.
Qed.

(** C4, amended: for every input text the Yaychi parser returns at most 3
    records; the camp parser and the item parser return, in the order of the
    lines, one record for each line that qualifies (never more records than
    lines), without a cap at 3. *)
Theorem parsers_record_counts (text : jsstring) :
  (length (parseYaychiResponse text) <= 3)%nat
  /\ parseResponse (Some text) = omap camp_of_line (split text [LF])
  /\ parseItemResponse text = omap item_of_line (split text [LF])
  /\ (length (parseResponse (Some text)) <= length (split text [LF]))%nat
  /\ (length (parseItemResponse text) <= length (split text [LF]))%nat.
Proof.
  split.
  - unfold parseYaychiResponse.
    destruct (fold_left _ _ _) as [yaychiInfo currentInfo].
    rewrite length_take. lia.
  - rewrite parseResponse_lines, parseItemResponse_lines.
    repeat split; apply length_omap_le.
Qed.

(** C5: with a second colon on the line the description stops there; the
    text after the second colon is lost. *)
Theorem parseItem_description_cut_at_second_colon :
  parseItemResponse (js "1. Tent: keeps: dry")
  = [mkItemInfo (js "Tent") (js "keeps")]
  /\ parseItemResponse (js "1. Tent: keeps: dry")
     <> [mkItemInfo (js "Tent") (js "keeps: dry")].
Proof.
  assert (H : parseItemResponse (js "1. Tent: keeps: dry")
              = [mkItemInfo (js "Tent") (js "keeps")])
    by (vm_compute; reflexivity).
  split; [exact H|]. rewrite H. vm_compute. discriminate.
Qed.

(** The example of the specification, with a single colon. *)
Example parseItem_tent :
  parseItemResponse (js "1. Tent: keeps you dry")
  = [mkItemInfo (js "Tent") (js "keeps you dry")].
Proof. vm_compute. reflexivity. Qed.

(** A line without the separator is one piece. *)
Lemma split_go_absent (c : N) (s cur : jsstring) :
  includes s [c] = false -> split_go [c] O cur s = [rev cur ++ s].
Proof.
  revert cur. induction s as [|x r IH]; intros cur H.
  - simpl. by rewrite app_nil_r.
  - cbn [includes] in H. apply orb_false_iff in H as [Hx Hr].
    cbn [split_go]. rewrite Hx, (IH _ Hr). simpl.
    by rewrite <- app_assoc.
Qed.

(** A numbered line that contains no colon gives no record. *)
Lemma item_line_without_colon_dropped (items : list ItemInfo) (line : jsstring) :
  includes (trim line) [COLON] = false -> parseItem_step items line = items.
Proof.
  intros H. unfold parseItem_step, split_limit, split.
  rewrite (split_go_absent _ _ _ H). simpl.
  by destruct (matches_number_dot _).
Qed.

(** C10: a numbered line with a name and no label line after it gives a
    record whose [spot] and [description] are absent, and the composer
    writes these absent values into the bubble. *)
Theorem yaychi_record_without_labels :
  exists text name : jsstring,
    truthy name = true
    /\ parseYaychiResponse text = [mkYaychiInfo (Some name) None None]
    /\ forall (Other : Type) (bubble : YaychiBubble Other)
         (rest : list (YaychiBubble Other)) (o : Other),
         contents (flex_contents
           (createYaychiFlexMessage (mkTemplate (bubble :: rest) o)
              (parseYaychiResponse text)))
         = mkYaychiBubble (Some name) None None (yaychi_other bubble) :: rest.
Proof.
  exists (js "1. Foo"), (js "Foo").
  assert (H : parseYaychiResponse (js "1. Foo")
              = [mkYaychiInfo (Some (js "Foo")) None None])
    by (vm_compute; reflexivity).
  split; [reflexivity|]. split; [exact H|].
  intros Other bubble rest o. rewrite H. reflexivity.
Qed.

(** ** Composers *)

Section ForEach.

Context {R B : Type} (write : R -> B -> B).

Abbreviation callback := (guarded_write write).

Lemma callback_lookup (bubbles : list B) (r : R) (index j : nat) :
  callback bubbles r index !! j
  = if decide (j = index) then write r <$> bubbles !! j else bubbles !! j.
Proof.
  unfold guarded_write. destruct (index <? length bubbles)%nat eqn:Hlt.
  - apply Nat.ltb_lt in Hlt.
    destruct (bubbles !! index) as [b|] eqn:Hb.
    + case_decide as Hj.
      * subst j. rewrite Hb. simpl. by apply list_lookup_insert_eq.
      * by apply list_lookup_insert_ne.
    + apply lookup_ge_None in Hb. lia.
  - apply Nat.ltb_ge in Hlt. case_decide as Hj; [|done].
    subst j. by rewrite (lookup_ge_None_2 _ _ Hlt).
Qed.

Lemma callback_length (bubbles : list B) (r : R) (index : nat) :
  length (callback bubbles r index) = length bubbles.
Proof.
  unfold guarded_write. destruct (index <? length bubbles)%nat; [|done].
  destruct (bubbles !! index); [|done]. apply length_insert.
Qed.

Lemma forEach_from_length (rs : list R) (index : nat) (bubbles : list B) :
  length (forEach_from callback index rs bubbles) = length bubbles.
Proof.
  revert index bubbles. induction rs as [|r rs IH]; intros; simpl; [done|].
  by rewrite IH, callback_length.
Qed.

(** After the loop, bubble [j] was written by record [j - index] if there
    is one, and is as before otherwise. *)
Lemma forEach_from_lookup (rs : list R) (index : nat) (bubbles : list B)
    (j : nat) :
  forEach_from callback index rs bubbles !! j
  = match (if decide (index <= j)%nat then rs !! (j - index)%nat else None) with
    | Some r => write r <$> bubbles !! j
    | None => bubbles !! j
    end.
Proof.
  revert index bubbles. induction rs as [|r rs IH]; intros index bubbles.
  - simpl. by case_decide.
  - cbn [forEach_from]. rewrite IH, callback_lookup.
    destruct (decide (j = index)) as [->|Hne].
    + rewrite decide_False by lia. rewrite decide_True by lia.
      by rewrite Nat.sub_diag.
    + destruct (decide (S index <= j)%nat) as [Hle|Hgt].
      * rewrite decide_True by lia.
        replace (j - index)%nat with (S (j - S index)) by lia. done.
      * by rewrite decide_False by lia.
Qed.

Lemma forEach_lookup (rs : list R) (bubbles : list B) (j : nat) :
  forEach callback rs bubbles !! j
  = match rs !! j with
    | Some r => write r <$> bubbles !! j
    | None => bubbles !! j
    end.
Proof.
  unfold forEach. rewrite forEach_from_lookup.
  rewrite decide_True by lia. by rewrite Nat.sub_0_r.
Qed.

(** The records beyond the number of bubbles have no effect. *)
Lemma forEach_take (rs : list R) (bubbles : list B) :
  forEach callback rs bubbles
  = forEach callback (take (length bubbles) rs) bubbles.
Proof.
  apply list_eq. intros j. rewrite !forEach_lookup.
  destruct (decide (j < length bubbles)%nat) as [Hlt|Hge].
  - by rewrite lookup_take_lt.
  - rewrite (lookup_ge_None_2 bubbles j) by lia.
    destruct (rs !! j), (take (length bubbles) rs !! j); done.
Qed.

End ForEach.

Section ComposerFrame.

Context {Other : Type}.
Context (flexCamp : Template Other (CampBubble Other)).
Context (flexYaychi : Template Other (YaychiBubble Other)).

Lemma camp_bubbles_lookup (campInfo : list CampInfo) (i : nat) :
  contents (flex_contents (createCampFlexMessage flexCamp campInfo)) !! i
  = match campInfo !! i with
    | Some camp => write_camp camp <$> contents flexCamp !! i
    | None => contents flexCamp !! i
    end.
Proof. exact (forEach_lookup write_camp campInfo (contents flexCamp) i). Qed.

Lemma yaychi_bubbles_lookup (yaychiInfo : list YaychiInfo) (i : nat) :
  contents (flex_contents (createYaychiFlexMessage flexYaychi yaychiInfo)) !! i
  = match yaychiInfo !! i with
    | Some info => write_yaychi info <$> contents flexYaychi !! i
    | None => contents flexYaychi !! i
    end.
Proof. exact (forEach_lookup write_yaychi yaychiInfo (contents flexYaychi) i). Qed.

(** C8: bubble [i] of the result is bubble [i] of the template with the
    written places taken from record [i] when both exist, and is bubble [i]
    of the template, unchanged, when there is no record [i]; the result has
    as many bubbles as the template, so the records beyond them are dropped
    without effect; with one record and three bubbles, the second and the
    third bubble are as in the template. *)
Theorem composers_frame (campInfo : list CampInfo)
    (yaychiInfo : list YaychiInfo) :
  let camp_out :=
    contents (flex_contents (createCampFlexMessage flexCamp campInfo)) in
  let yaychi_out :=
    contents (flex_contents (createYaychiFlexMessage flexYaychi yaychiInfo)) in
  (forall i : nat,
      camp_out !! i
      = match campInfo !! i with
        | Some camp => write_camp camp <$> contents flexCamp !! i
        | None => contents flexCamp !! i
        end)
  /\ (forall i : nat,
      yaychi_out !! i
      = match yaychiInfo !! i with
        | Some info => write_yaychi info <$> contents flexYaychi !! i
        | None => contents flexYaychi !! i
        end)
  /\ length camp_out = length (contents flexCamp)
  /\ length yaychi_out = length (contents flexYaychi)
  /\ createCampFlexMessage flexCamp campInfo
     = createCampFlexMessage flexCamp
         (take (length (contents flexCamp)) campInfo)
  /\ createYaychiFlexMessage flexYaychi yaychiInfo
     = createYaychiFlexMessage flexYaychi
         (take (length (contents flexYaychi)) yaychiInfo)
  /\ (forall (camp : CampInfo) (b1 b2 b3 : CampBubble Other) (o : Other),
      contents (flex_contents
        (createCampFlexMessage (mkTemplate [b1; b2; b3] o) [camp]))
      = [mkCampBubble (Some (camp_name camp))
           (if truthy_opt (homepage_url camp) then homepage_url camp
            else camp_uri b1)
           (camp_other b1); b2; b3])
  /\ (forall (info : YaychiInfo) (b1 b2 b3 : YaychiBubble Other) (o : Other),
      contents (flex_contents
        (createYaychiFlexMessage (mkTemplate [b1; b2; b3] o) [info]))
      = [mkYaychiBubble (yaychi_name info) (spot info) (description info)
           (yaychi_other b1); b2; b3]).
Proof.
  cbv zeta. repeat split.
  - apply camp_bubbles_lookup.
  - apply yaychi_bubbles_lookup.
  - exact (forEach_from_length write_camp campInfo O (contents flexCamp)).
  - exact (forEach_from_length write_yaychi yaychiInfo O (contents flexYaychi)).
  - unfold createCampFlexMessage. do 2 f_equal.
    exact (forEach_take write_camp campInfo (contents flexCamp)).
  - unfold createYaychiFlexMessage. do 2 f_equal.
    exact (forEach_take write_yaychi yaychiInfo (contents flexYaychi)).
Qed.

End ComposerFrame.

(** ** Computations and their traces *)

Section Turns.

Context {Other : Type} (sv : Services Other).

Implicit Types (w : World Other) (c : Call Other) (P : Call Other -> bool).

Lemma world_eta w : w = mkWorld (table w) (trace w ++ []).
Proof. destruct w. simpl. by rewrite app_nil_r. Qed.

Lemma stops_ret P {A} (a : A) : stops_at_failure P (ret (Other:=Other) a).
Proof.
  intros w. exists []. unfold ret. simpl.
  split; [apply world_eta|]. split; constructor.
Qed.

Lemma stops_line_call P c :
  P c = true -> stops_at_failure P (line_call sv c).
Proof.
  intros HP w. exists [mkEvent c (line_returns sv (trace w) c)].
  unfold line_call, record.
  destruct (line_returns sv (trace w) c); simpl.
  - repeat split; repeat constructor; done.
  - repeat split; [repeat constructor; done|].
    exists [], c. split; [done|constructor].
Qed.

Lemma stops_chat P req :
  P (chatCompletion req) = true -> stops_at_failure P (chat_content sv req).
Proof.
  intros HP w. unfold chat_content, record.
  destruct (openai_create sv (trace w) req) as [content|]; simpl.
  - exists [mkEvent (chatCompletion req) true].
    repeat split; repeat constructor; done.
  - exists [mkEvent (chatCompletion req) false].
    repeat split; [repeat constructor; done|].
    exists [], (chatCompletion req). split; [done|constructor].
Qed.

Lemma stops_bind P {A B} (m : M Other A) (k : A -> M Other B) :
  stops_at_failure P m -> (forall a, stops_at_failure P (k a)) ->
  stops_at_failure P (bind m k).
Proof.
  intros Hm Hk w. destruct (Hm w) as (e1 & Hw1 & HP1 & Hr1).
  unfold bind. destruct (m w) as [[a|] w1]; simpl in Hw1, Hr1.
  - destruct (Hk a w1) as (e2 & Hw2 & HP2 & Hr2).
    exists (e1 ++ e2).
    split; [rewrite Hw2, Hw1; simpl; by rewrite app_assoc|].
    split; [by apply Forall_app_2|].
    destruct (fst (k a w1)).
    + by apply Forall_app_2.
    + destruct Hr2 as (pre & c & -> & Hpre).
      exists (e1 ++ pre), c. rewrite app_assoc.
      split; [done|]. by apply Forall_app_2.
  - exists e1. simpl. done.
Qed.

Lemma stops_for_of P {A} (arr : list A) (f : A -> M Other unit) :
  (forall x, stops_at_failure P (f x)) -> stops_at_failure P (for_of arr f).
Proof.
  intros Hf. induction arr as [|x r IH]; cbn [for_of].
  - apply stops_ret.
  - apply stops_bind; [apply Hf|]. intros _. apply IH.
Qed.

Lemma stops_pushMessage P uid text :
  (forall t, P (pushTextMessage uid t) = true) ->
  stops_at_failure P (pushMessage sv uid text).
Proof.
  intros HP. unfold pushMessage. apply stops_for_of.
  intros t. by apply stops_line_call.
Qed.

Lemma stops_talks P {A} (m : M Other A) : stops_at_failure P m -> talks P m.
Proof.
  intros Hm w. destruct (Hm w) as (evs & Hw & HP & _). by exists evs.
Qed.

Lemma talks_bind P {A B} (m : M Other A) (k : A -> M Other B) :
  talks P m -> (forall a, talks P (k a)) -> talks P (bind m k).
Proof.
  intros Hm Hk w. destruct (Hm w) as (e1 & Hw1 & HP1).
  unfold bind. destruct (m w) as [[a|] w1]; simpl in Hw1.
  - destruct (Hk a w1) as (e2 & Hw2 & HP2).
    exists (e1 ++ e2).
    split; [rewrite Hw2, Hw1; simpl; by rewrite app_assoc|].
    by apply Forall_app_2.
  - by exists e1.
Qed.

Lemma talks_try_catch P {A} (body handler : M Other A) :
  talks P body -> talks P handler -> talks P (try_catch body handler).
Proof.
  intros Hb Hh w. destruct (Hb w) as (e1 & Hw1 & HP1).
  unfold try_catch. destruct (body w) as [[a|] w1]; simpl in Hw1.
  - by exists e1.
  - destruct (Hh w1) as (e2 & Hw2 & HP2).
    exists (e1 ++ e2).
    split; [rewrite Hw2, Hw1; simpl; by rewrite app_assoc|].
    by apply Forall_app_2.
Qed.

(** *** [pushMessage] *)

Lemma split_messages_S (fuel i : nat) (text : jsstring) :
  split_messages (S fuel) i text
  = if (i <? length text)%nat
    then take 5000 (drop i text) :: split_messages fuel (i + 5000) text
    else [].
Proof. reflexivity. Qed.

(** The fuel is enough: the pieces are the whole text, in order. *)
Lemma split_messages_from (fuel i : nat) (text : jsstring) :
  (length text - i <= fuel)%nat ->
  concat (split_messages fuel i text) = drop i text.
Proof.
  revert i. induction fuel as [|fuel IH]; intros i Hfuel.
  - cbn [split_messages concat]. symmetry. apply drop_ge. lia.
  - rewrite split_messages_S.
    destruct (i <? length text)%nat eqn:Hi.
    + cbn [concat]. rewrite IH by lia.
      rewrite <- (take_drop 5000 (drop i text)) at 2.
      by rewrite drop_drop.
    + apply Nat.ltb_ge in Hi. cbn [concat]. symmetry. by apply drop_ge.
Qed.

Lemma split_messages_concat (text : jsstring) :
  concat (split_messages (length text) 0 text) = text.
Proof. rewrite split_messages_from by lia. apply drop_0. Qed.

(** A text of at most 5000 code units, not empty, is one message. *)
Lemma split_messages_short (text : jsstring) :
  (0 < length text <= 5000)%nat ->
  split_messages (length text) 0 text = [text].
Proof.
  intros [Hpos Hle]. destruct (length text) as [|n] eqn:Hlen; [lia|].
  rewrite split_messages_S, Hlen.
  replace (0 <? S n)%nat with true by (symmetry; apply Nat.ltb_lt; lia).
  rewrite drop_0, take_ge by lia. f_equal.
  destruct n as [|n]; [done|].
  rewrite split_messages_S, Hlen.
  replace (0 + 5000 <? S (S n))%nat with false
    by (symmetry; apply Nat.ltb_ge; lia).
  done.
Qed.

Lemma pushMessage_short uid (text : jsstring) :
  (0 < length text <= 5000)%nat ->
  pushMessage sv uid text
  = bind (line_call sv (pushTextMessage uid text)) (fun _ => ret tt).
Proof.
  intros H. unfold pushMessage. by rewrite split_messages_short.
Qed.

(** *** The terminal actions *)

Lemma handleCampInfo_try_stops uid region date conditions :
  stops_at_failure generation_or_push
    (handleCampInfo_try sv uid region date conditions).
Proof.
  unfold handleCampInfo_try.
  apply stops_bind; [by apply stops_chat|]. intros content. cbv zeta.
  destruct (length (parseResponse content) =? 0)%nat.
  - by apply stops_pushMessage.
  - apply stops_bind; [by apply stops_pushMessage|]. intros _.
    apply stops_bind; [by apply stops_line_call|]. intros _.
    apply stops_bind; [by apply stops_chat|]. intros detail.
    by apply stops_pushMessage.
Qed.

Lemma handleYaychiInfo_try_stops uid prefecture conditions :
  stops_at_failure generation_or_push
    (handleYaychiInfo_try sv uid prefecture conditions).
Proof.
  unfold handleYaychiInfo_try.
  apply stops_bind; [by apply stops_chat|]. intros content. cbv zeta.
  destruct (length (parseYaychiResponse (or_else content [])) =? 0)%nat.
  - by apply stops_pushMessage.
  - apply stops_bind; [by apply stops_pushMessage|]. intros _.
    by apply stops_line_call.
Qed.

Lemma suggest_product_stops uid item :
  stops_at_failure generation_or_push (suggest_product sv uid item).
Proof.
  unfold suggest_product.
  apply stops_bind; [by apply stops_chat|]. intros searchRes.
  by apply stops_pushMessage.
Qed.

Lemma handleItemSuggestion_try_stops uid location duration conditions :
  stops_at_failure generation_or_push
    (handleItemSuggestion_try sv uid location duration conditions).
Proof.
  unfold handleItemSuggestion_try.
  apply stops_bind; [by apply stops_chat|]. intros content. cbv zeta.
  destruct (length (parseItemResponse (or_else content [])) =? 0)%nat.
  - by apply stops_pushMessage.
  - apply stops_bind; [by apply stops_pushMessage|]. intros _.
    apply stops_for_of. intros item. apply suggest_product_stops.
Qed.

(** An action made of the acknowledging reply and of a [try] block whose
    handler pushes a short apology. *)
Lemma reply_then_try_caught uid apology replyToken ack
    (body : M Other unit) :
  stops_at_failure generation_or_push body ->
  (0 < length apology <= 5000)%nat ->
  caught_inside uid apology
    (bind (reply sv replyToken ack)
          (fun _ => try_catch body (pushMessage sv uid apology))).
Proof.
  intros Hbody Hlen w. rewrite (pushMessage_short _ _ Hlen).
  set (act := bind _ _).
  destruct (line_returns sv (trace w) (replyMessage replyToken ack)) eqn:Hr.
  - set (w1 := record (replyMessage replyToken ack) true w).
    destruct (Hbody w1) as (e2 & Hw2 & HP2 & Hout).
    destruct (body w1) as [[[]|] w2] eqn:Hb; simpl in Hw2, Hout.
    + assert (Hact : act w = (Ok tt, w2)).
      { unfold act, bind, reply, line_call, try_catch.
        rewrite Hr. fold w1. by rewrite Hb. }
      rewrite Hact. simpl.
      exists (mkEvent (replyMessage replyToken ack) true :: e2).
      split; [subst w2; simpl; by rewrite <- app_assoc|].
      left. split; [done|]. by constructor.
    + destruct Hout as (pre & c & -> & Hpre).
      unfold all_calls in HP2.
      rewrite Forall_app, Forall_singleton in HP2.
      destruct HP2 as [_ Hc]. simpl in Hc.
      set (b := line_returns sv (trace w2) (pushTextMessage uid apology)).
      assert (Hact : act w
                     = (if b then Ok tt else Throw,
                        record (pushTextMessage uid apology) b w2)).
      { unfold act, bind at 1. unfold reply, line_call at 1, try_catch.
        rewrite Hr. fold w1. rewrite Hb.
        unfold bind, line_call, ret. fold b. by destruct b. }
      rewrite Hact. simpl.
      exists (mkEvent (replyMessage replyToken ack) true
              :: pre ++ [mkEvent c false;
                         mkEvent (pushTextMessage uid apology) b]).
      split.
      * subst w2. unfold record. simpl. f_equal.
        by rewrite <- !app_assoc.
      * right; right.
        exists (mkEvent (replyMessage replyToken ack) true :: pre), c, b.
        split; [done|]. split; [by constructor|]. split; [exact Hc|done].
  - assert (Hact : act w
                   = (Throw, record (replyMessage replyToken ack) false w)).
    { unfold act, bind, reply, line_call. by rewrite Hr. }
    rewrite Hact. simpl.
    exists [mkEvent (replyMessage replyToken ack) false].
    split; [done|]. right; left. split; [done|]. by eexists _, _.
Qed.

Lemma apologies_short :
  (0 < length camp_error_text <= 5000)%nat
  /\ (0 < length yaychi_error_text <= 5000)%nat
  /\ (0 < length item_error_text <= 5000)%nat.
Proof.
  assert (H : forall t : jsstring,
             ((0 <? length t) && (length t <=? 5000))%nat = true ->
             (0 < length t <= 5000)%nat).
  { intros t Ht. apply andb_true_iff in Ht as [H1 H2].
    apply Nat.ltb_lt in H1. apply Nat.leb_le in H2. lia. }
  repeat split; apply H; vm_compute; reflexivity.
Qed.

(** C6, amended: in each terminal action an exception of a call to the
    completion API or of a push, raised in the [try] block, is caught in the
    action and followed by exactly one push of the apology of the action;
    the action returns when that push returns.  An exception of the
    acknowledging reply, sent before the [try] block, and an exception of
    the push of the apology leave the action. *)
Theorem terminal_actions_catch (uid replyToken : jsstring)
    (a b : JsVal) (conditions : jsstring) :
  caught_inside uid camp_error_text
    (handleCampInfo sv uid replyToken a b conditions)
  /\ caught_inside uid yaychi_error_text
       (handleYaychiInfo sv uid replyToken a conditions)
  /\ caught_inside uid item_error_text
       (handleItemSuggestion sv uid replyToken a b conditions).
Proof.
  destruct apologies_short as (Hc & Hy & Hi).
  split; [|split].
  - apply reply_then_try_caught; [apply handleCampInfo_try_stops|exact Hc].
  - apply reply_then_try_caught; [apply handleYaychiInfo_try_stops|exact Hy].
  - apply reply_then_try_caught; [apply handleItemSuggestion_try_stops|exact Hi].
Qed.

(** *** The table *)

Lemma saveUserId_run uid w :
  saveUserId uid w
  = (Ok tt,
     mkWorld (<[uid := mkItem None None]> (table w))
       (trace w ++ [mkEvent (PutItemCommand uid (mkItem None None)) true])).
Proof. reflexivity. Qed.

Lemma getState_run uid w :
  getState uid w
  = (Ok (match table w !! uid with
         | Some item => state item
         | None => None
         end),
     record (GetItemCommand uid) true w).
Proof. reflexivity. Qed.

Lemma getStateData_run uid key w :
  exists v, getStateData uid key w
            = (Ok v, record (GetItemCommand uid) true w).
Proof.
  unfold getStateData, bind, ddb_get.
  destruct (table w !! uid) as [[st [d|]]|]; [|by eexists..].
  destruct key as [k|]; [|by eexists].
  destruct (negb (k =? ""))%string; by eexists.
Qed.

Lemma talks_mono P Q {A} (m : M Other A) :
  (forall c, P c = true -> Q c = true) -> talks P m -> talks Q m.
Proof.
  intros HPQ Hm w. destruct (Hm w) as (evs & Hw & HP).
  exists evs. split; [done|].
  eapply Forall_impl; [exact HP|]. intros e. apply HPQ.
Qed.

Lemma talks_table P {A} (m : M Other A) w :
  talks P m -> table (snd (m w)) = table w.
Proof. intros Hm. destruct (Hm w) as (evs & -> & _). done. Qed.

Lemma generation_or_push_outbound c :
  generation_or_push c = true -> outbound c = true.
Proof. by destruct c. Qed.

Lemma reply_talks replyToken text : talks outbound (reply sv replyToken text).
Proof. apply stops_talks. by apply stops_line_call. Qed.

Lemma handleGeneralMessage_talks replyToken text :
  talks outbound (handleGeneralMessage sv replyToken text).
Proof.
  unfold handleGeneralMessage. apply talks_try_catch; [|apply reply_talks].
  apply talks_bind; [apply stops_talks; by apply stops_chat|].
  intros content. apply reply_talks.
Qed.

Lemma reply_then_try_talks replyToken ack uid apology (body : M Other unit) :
  stops_at_failure generation_or_push body ->
  talks outbound
    (bind (reply sv replyToken ack)
          (fun _ => try_catch body (pushMessage sv uid apology))).
Proof.
  intros Hbody. apply talks_bind; [apply reply_talks|]. intros _.
  apply talks_try_catch.
  - eapply talks_mono; [apply generation_or_push_outbound|].
    by apply stops_talks.
  - apply stops_talks. by apply stops_pushMessage.
Qed.

Lemma handleCampInfo_talks uid replyToken a b conditions :
  talks outbound (handleCampInfo sv uid replyToken a b conditions).
Proof. apply reply_then_try_talks, handleCampInfo_try_stops. Qed.

Lemma handleYaychiInfo_talks uid replyToken a conditions :
  talks outbound (handleYaychiInfo sv uid replyToken a conditions).
Proof. apply reply_then_try_talks, handleYaychiInfo_try_stops. Qed.

Lemma handleItemSuggestion_talks uid replyToken a b conditions :
  talks outbound (handleItemSuggestion sv uid replyToken a b conditions).
Proof. apply reply_then_try_talks, handleItemSuggestion_try_stops. Qed.

(** *** The turn of a text message *)

Lemma saveUserId_lookup uid w :
  table (snd (saveUserId uid w)) !! uid = Some (mkItem None None).
Proof. rewrite saveUserId_run. apply lookup_insert_eq. Qed.

Lemma getState_absent uid w :
  table w !! uid = Some (mkItem None None) ->
  getState uid w = (Ok None, record (GetItemCommand uid) true w).
Proof. intros Hw. by rewrite getState_run, Hw. Qed.

Lemma text_turn_menu (uid replyToken text : jsstring) (w : World Other) :
  handle_first sv (TextMessageEvent uid replyToken text) w
  = menu_selection sv uid replyToken text
      (record (GetItemCommand uid) true (snd (saveUserId uid w))).
Proof.
  unfold handle_first, bind.
  pose proof (saveUserId_lookup uid w) as Hsaved.
  rewrite saveUserId_run in Hsaved |- *. cbn [snd] in Hsaved |- *.
  by rewrite (getState_absent _ _ Hsaved).
Qed.

(** C2: in the turn of a text message [saveUserId] puts an item that holds
    the key alone, the item of the user has no [state] and no [data] after
    it, the read of the state that follows gives no state, and the turn goes
    on with the choice in the menu, whatever the table held before. *)
Theorem saveUserId_erases_state_before_read (uid replyToken text : jsstring)
    (w : World Other) :
  let w1 := snd (saveUserId uid w) in
  let w2 := record (GetItemCommand uid) true w1 in
  trace w1 = trace w ++ [mkEvent (PutItemCommand uid (mkItem None None)) true]
  /\ table w1 !! uid = Some (mkItem None None)
  /\ getState uid w1 = (Ok None, w2)
  /\ handle_first sv (TextMessageEvent uid replyToken text) w
     = menu_selection sv uid replyToken text w2.
Proof.
  cbv zeta. split.
  - by rewrite saveUserId_run.
  - split; [apply saveUserId_lookup|]. split.
    + apply getState_absent, saveUserId_lookup.
    + apply text_turn_menu.
Qed.

Lemma menu_selection_table uid replyToken text w :
  table (snd (menu_selection sv uid replyToken text w)) !! uid
  = if eqb_js text (js "きゃんぷ場調べ")
    then Some (mkItem (Some (js "awaiting_region_camp")) None)
    else if eqb_js text (js "野営地調べ")
    then Some (mkItem (Some (js "awaiting_prefecture_yaychi")) None)
    else if eqb_js text (js "持ち物提案")
    then Some (mkItem (Some (js "awaiting_location_items")) None)
    else table w !! uid.
Proof.
  assert (Hput : forall st tok msg,
    table (snd (bind (putState uid st)
                  (fun _ => bind (reply sv tok msg) (fun _ => ret OK)) w)) !! uid
    = Some (mkItem (Some st) None)).
  { intros st tok msg. unfold bind at 1. unfold putState, ddb_put.
    rewrite (talks_table outbound).
    - apply lookup_insert_eq.
    - apply talks_bind; [apply reply_talks|].
      intros _. apply stops_talks, stops_ret. }
  unfold menu_selection.
  repeat (destruct (eqb_js text _); [apply Hput|]).
  rewrite (talks_table outbound); [done|].
  apply talks_bind; [apply handleGeneralMessage_talks|].
  intros _. apply stops_talks, stops_ret.
Qed.

(** C1: after the trigger phrase the state [awaiting_region_camp] is stored
    and the prompt for the region is the reply; the next message, [Tokyo],
    does not advance the flow: its turn puts the bare key over the stored
    state, reads no state, and is the general message of the menu; no state
    and no region are stored after it. *)
Theorem camp_flow_lost_on_second_message (uid token1 token2 : jsstring)
    (w : World Other) :
  let w1 :=
    snd (handle_first sv (TextMessageEvent uid token1 (js "きゃんぷ場調べ")) w) in
  let turn2 := handle_first sv (TextMessageEvent uid token2 (js "Tokyo")) w1 in
  table w1 !! uid = Some (mkItem (Some (js "awaiting_region_camp")) None)
  /\ (exists r,
       trace w1
       = trace w
         ++ [mkEvent (PutItemCommand uid (mkItem None None)) true;
             mkEvent (GetItemCommand uid) true;
             mkEvent (PutItemCommand uid
                        (mkItem (Some (js "awaiting_region_camp")) None)) true;
             mkEvent (replyMessage token1 (js "調べたい地域を教えてください。")) r])
  /\ turn2
     = bind (handleGeneralMessage sv token2 (js "Tokyo")) (fun _ => ret OK)
         (record (GetItemCommand uid) true (snd (saveUserId uid w1)))
  /\ table (snd turn2) !! uid = Some (mkItem None None)
  /\ table (snd turn2) !! uid
     <> Some (mkItem (Some (js "awaiting_date_camp"))
                (Some [("region"%string, VString (js "Tokyo"))])).
Proof.
  cbv zeta.
  rewrite (text_turn_menu uid token1 (js "きゃんぷ場調べ") w).
  set (w1 := snd (menu_selection sv uid token1 (js "きゃんぷ場調べ") _)).
  rewrite (text_turn_menu uid token2 (js "Tokyo") w1).
  pose proof (saveUserId_lookup uid w1) as Hsaved.
  assert (Hstate : table w1 !! uid
                   = Some (mkItem (Some (js "awaiting_region_camp")) None)).
  { unfold w1. rewrite menu_selection_table.
    replace (eqb_js (js "きゃんぷ場調べ") (js "きゃんぷ場調べ")) with true
      by (vm_compute; reflexivity).
    done. }
  assert (Hafter :
    table (snd (menu_selection sv uid token2 (js "Tokyo")
                  (record (GetItemCommand uid) true (snd (saveUserId uid w1)))))
    !! uid = Some (mkItem None None)).
  { rewrite menu_selection_table.
    replace (eqb_js (js "Tokyo") (js "きゃんぷ場調べ")) with false
      by (vm_compute; reflexivity).
    replace (eqb_js (js "Tokyo") (js "野営地調べ")) with false
      by (vm_compute; reflexivity).
    replace (eqb_js (js "Tokyo") (js "持ち物提案")) with false
      by (vm_compute; reflexivity).
    exact Hsaved. }
  split; [exact Hstate|]. split.
  - unfold w1, menu_selection.
    replace (eqb_js (js "きゃんぷ場調べ") (js "きゃんぷ場調べ")) with true
      by (vm_compute; reflexivity).
    unfold bind, putState, ddb_put, reply, line_call, record, ret.
    cbn [trace table snd].
    destruct (line_returns sv _ _); cbn [trace snd];
      eexists; rewrite saveUserId_run; cbn [trace snd];
      rewrite <- !app_assoc; reflexivity.
  - split; [|split; [exact Hafter|rewrite Hafter; discriminate]].
    unfold menu_selection.
    replace (eqb_js (js "Tokyo") (js "きゃんぷ場調べ")) with false
      by (vm_compute; reflexivity).
    replace (eqb_js (js "Tokyo") (js "野営地調べ")) with false
      by (vm_compute; reflexivity).
    replace (eqb_js (js "Tokyo") (js "持ち物提案")) with false
      by (vm_compute; reflexivity).
    done.
Qed.

(** *** The follow event *)

Lemma follow_run uid replyToken w :
  exists r,
    snd (handle_first sv (FollowEvent uid replyToken) w)
    = mkWorld (<[uid := mkItem None None]> (table w))
        (trace w
         ++ [mkEvent (PutItemCommand uid (mkItem None None)) true;
             mkEvent (replyMessage replyToken
                        (js "友達追加ありがとうございます🚀")) r]).
Proof.
  unfold handle_first, bind. rewrite saveUserId_run.
  unfold reply, line_call, record, ret. cbn [trace table].
  destruct (line_returns sv _ _); cbn [snd];
    eexists; rewrite <- app_assoc; reflexivity.
Qed.

(** *** The first event of the batch *)

(** C7, amended: in [handler], the entry point of the conversation, an
    invocation that is accepted and whose body holds the events [e :: rest]
    does what the logic does on [e], and what the same invocation does when
    the body holds [e] alone: the same result, the same table and the same
    calls. *)
Theorem handler_first_event_only (gw : Gateway) (event : LambdaEvent)
    (e : WebhookEvent) (rest : list WebhookEvent) (w : World Other) :
  truthy_opt (event_body event) = true ->
  truthy_opt (signature_of event) = true ->
  validateSignature gw (default [] (event_body event)) (CHANNEL_SECRET gw)
    (default [] (signature_of event)) = true ->
  JSON_parse_events gw (default [] (event_body event))
  = Some (Some (e :: rest)) ->
  handler sv gw event w = handle_first sv e w
  /\ handler sv gw event w = handler sv (with_events gw [e]) event w.
Proof.
  intros Hbody Hsig Hvalid Hparse.
  assert (H1 : handler sv gw event w = handle_first sv e w).
  { unfold handler. rewrite Hbody. cbv zeta. rewrite Hsig, Hvalid, Hparse.
    reflexivity. }
  split; [exact H1|]. rewrite H1.
  unfold handler. rewrite Hbody. cbv zeta. rewrite Hsig.
  cbn [with_events validateSignature CHANNEL_SECRET JSON_parse_events].
  rewrite Hvalid. reflexivity.
Qed.

(** *** The order of the writes and of the replies *)

Lemma writes_put {A} uid item (m : M Other A) :
  talks outbound m -> writes_then_talks (bind (ddb_put uid item) (fun _ => m)).
Proof.
  intros Hm w. unfold bind, ddb_put.
  set (w1 := mkWorld _ _). destruct (Hm w1) as (evs & Hw & Hevs).
  exists [mkEvent (PutItemCommand uid item) true], evs.
  rewrite Hw. unfold w1. cbn [trace]. rewrite <- app_assoc.
  split; [done|]. split; [by repeat constructor|].
  split; [by constructor|done].
Qed.

Lemma writes_get_then {A} uid key (k : JsVal -> M Other A) :
  (forall v, writes_then_talks (k v)) ->
  writes_then_talks (bind (getStateData uid key) k).
Proof.
  intros Hk w. unfold bind.
  destruct (getStateData_run uid key w) as (v & ->).
  destruct (Hk v (record (GetItemCommand uid) true w))
    as (st & evs & Hw & Hst & Hput & Hevs).
  exists (mkEvent (GetItemCommand uid) true :: st), evs.
  rewrite Hw. unfold record. cbn [trace]. rewrite <- app_assoc.
  split; [done|]. split; [by constructor|].
  split; [by apply Exists_cons_tl|done].
Qed.

Lemma handleStateMessage_writes_then_talks uid replyToken text st :
  writes_then_talks (handleStateMessage sv uid replyToken text st).
Proof.
  unfold handleStateMessage, putStateWithData, clearState.
  destruct (eqb_js st (js "awaiting_region_camp")).
  { apply writes_put. apply reply_talks. }
  destruct (eqb_js st (js "awaiting_date_camp")).
  { apply writes_get_then. intros v. apply writes_put. apply reply_talks. }
  destruct (eqb_js st (js "awaiting_conditions_camp")).
  { apply writes_get_then. intros v. apply writes_put.
    apply handleCampInfo_talks. }
  destruct (eqb_js st (js "awaiting_prefecture_yaychi")).
  { apply writes_put. apply reply_talks. }
  destruct (eqb_js st (js "awaiting_conditions_yaychi")).
  { apply writes_get_then. intros v. apply writes_put.
    apply handleYaychiInfo_talks. }
  destruct (eqb_js st (js "awaiting_location_items")).
  { apply writes_put. apply reply_talks. }
  destruct (eqb_js st (js "awaiting_duration_items")).
  { apply writes_get_then. intros v. apply writes_put. apply reply_talks. }
  destruct (eqb_js st (js "awaiting_conditions_items")).
  { apply writes_get_then. intros v. apply writes_put.
    apply handleItemSuggestion_talks. }
  apply writes_put. apply handleGeneralMessage_talks.
Qed.

Lemma menu_selection_stores_then_talks uid replyToken text :
  stores_then_talks (menu_selection sv uid replyToken text).
Proof.
  assert (Hret : forall m : M Other unit,
             talks outbound m -> talks outbound (bind m (fun _ => ret OK))).
  { intros m Hm. apply talks_bind; [done|].
    intros _. apply stops_talks, stops_ret. }
  assert (Hput : forall st tok msg,
    stores_then_talks
      (bind (putState uid st)
            (fun _ => bind (reply sv tok msg) (fun _ => ret OK)))).
  { intros st tok msg w.
    destruct (writes_put uid (mkItem (Some st) None) _
                (Hret _ (reply_talks tok msg)) w)
      as (s & evs & Hw & Hs & _ & Hevs).
    by exists s, evs. }
  unfold menu_selection.
  repeat (destruct (eqb_js text _); [apply Hput|]).
  intros w.
  destruct (Hret _ (handleGeneralMessage_talks replyToken text) w)
    as (evs & Hw & Hevs).
  exists [], evs. rewrite Hw. split; [done|]. split; [constructor|done].
Qed.

Lemma text_turn_writes_then_talks uid replyToken text :
  writes_then_talks (handle_first sv (TextMessageEvent uid replyToken text)).
Proof.
  intros w.
  rewrite (text_turn_menu uid replyToken text w).
  destruct (menu_selection_stores_then_talks uid replyToken text
              (record (GetItemCommand uid) true (snd (saveUserId uid w))))
    as (st & evs & Hw & Hst & Hevs).
  exists (mkEvent (PutItemCommand uid (mkItem None None)) true
          :: mkEvent (GetItemCommand uid) true :: st), evs.
  rewrite Hw, saveUserId_run. unfold record. cbn [trace snd].
  rewrite <- !app_assoc.
  split; [done|]. split; [by repeat constructor|].
  split; [by constructor|done].
Qed.

(** A reply found in calls to the table followed by outbound calls lies
    among the outbound calls. *)
Lemma reply_after_stores (st evs pre post : list (Event Other))
    replyToken text r :
  all_calls is_store st -> all_calls outbound evs ->
  st ++ evs = pre ++ mkEvent (replyMessage replyToken text) r :: post ->
  exists pre', pre = st ++ pre'
               /\ evs = pre' ++ mkEvent (replyMessage replyToken text) r :: post.
Proof.
  intros Hst _. revert pre.
  induction Hst as [|s st Hs Hst IH]; intros pre Heq.
  - by exists pre.
  - destruct pre as [|p pre]; simpl in Heq.
    + injection Heq as -> _. simpl in Hs. discriminate.
    + injection Heq as <- Heq. destruct (IH _ Heq) as (pre' & -> & ->).
      by exists pre'.
Qed.

Lemma writes_then_talks_order {A} (m : M Other A) w pre post replyToken text r :
  writes_then_talks m ->
  trace (snd (m w))
  = trace w ++ pre ++ mkEvent (replyMessage replyToken text) r :: post ->
  some_put pre /\ no_put post.
Proof.
  intros Hm Htrace.
  destruct (Hm w) as (st & evs & Hw & Hst & Hput & Hevs).
  rewrite Hw in Htrace. apply app_inv_head in Htrace.
  destruct (reply_after_stores _ _ _ _ _ _ _ Hst Hevs Htrace)
    as (pre' & -> & ->).
  split; [by apply Exists_app; left|].
  unfold all_calls in Hevs. rewrite Forall_app, Forall_cons in Hevs.
  destruct Hevs as (_ & _ & Hpost).
  eapply Forall_impl; [exact Hpost|].
  intros e. unfold outbound. by destruct (call e).
Qed.

(** C9: in the turn of a text message, and in every branch of the state
    machine, a reply comes after a write to the table and no write to the
    table comes after a reply. *)
Theorem state_write_precedes_reply (uid replyToken text st : jsstring)
    (w : World Other) (pre post : list (Event Other))
    (token message : jsstring) (r : bool) :
  trace (snd (handle_first sv (TextMessageEvent uid replyToken text) w))
  = trace w ++ pre ++ mkEvent (replyMessage token message) r :: post
  \/ trace (snd (handleStateMessage sv uid replyToken text st w))
     = trace w ++ pre ++ mkEvent (replyMessage token message) r :: post ->
  some_put pre /\ no_put post.
Proof.
  intros [H|H].
  - eapply writes_then_talks_order; [|exact H].
    apply text_turn_writes_then_talks.
  - eapply writes_then_talks_order; [|exact H].
    apply handleStateMessage_writes_then_talks.
Qed.

End Turns.

(** ** The scenarios *)

Import Scenario.

(** C3: a follow event of a user in the middle of the camp flow puts the
    bare key over the item: the stored state and the collected region are
    gone after it. *)
Theorem follow_erases_stored_state :
  let w := snd (handle_first (services line_up)
                  (FollowEvent U (js "token")) midflow) in
  table midflow !! U
  = Some (mkItem (Some (js "awaiting_date_camp"))
            (Some [("region"%string, VString (js "Tokyo"))]))
  /\ table w !! U = Some (mkItem None None)
  /\ trace w
     = [mkEvent (PutItemCommand U (mkItem None None)) true;
        mkEvent (replyMessage (js "token")
                   (js "友達追加ありがとうございます🚀")) true].
Proof.
  cbv zeta. split; [apply lookup_singleton_eq|]. split.
  - destruct (follow_run (services line_up) U (js "token") midflow)
      as (r & ->).
    apply lookup_insert_eq.
  - vm_compute. reflexivity.
Qed.

(** C6, as stated, fails: when LINE rejects the acknowledging reply the
    exception leaves [handleCampInfo] and no apology is pushed; when LINE
    takes the reply and rejects the pushes, the push of the apology throws
    in the handler of the exception and the exception leaves the action. *)
Lemma terminal_action_exception_escapes :
  let down := handleCampInfo (services line_down) U (js "token")
                (VString (js "Tokyo")) (VString (js "3/1")) (js "pet")
                start in
  let no_push := handleCampInfo (services replies_only) U (js "token")
                   (VString (js "Tokyo")) (VString (js "3/1")) (js "pet")
                   start in
  fst down = Throw
  /\ map returned (trace (snd down)) = [false]
  /\ map (fun e => is_reply (call e)) (trace (snd down)) = [true]
  /\ fst no_push = Throw
  /\ map returned (trace (snd no_push)) = [true; true; false; false]
  /\ last (trace (snd no_push))
     = Some (mkEvent (pushTextMessage U camp_error_text) false).
Proof. vm_compute. repeat split. Qed.

Lemma handler_first_event_only_witness :
  let first := text_event (js "token 1") (js "hello") in
  let rest := [text_event (js "token 2") (js "きゃんぷ場調べ")] in
  let gw := gateway (first :: rest) in
  truthy_opt (event_body invocation) = true
  /\ truthy_opt (signature_of invocation) = true
  /\ validateSignature gw (default [] (event_body invocation))
       (CHANNEL_SECRET gw) (default [] (signature_of invocation)) = true
  /\ JSON_parse_events gw (default [] (event_body invocation))
     = Some (Some (first :: rest))
  /\ handler (services line_up) gw invocation start
     = handle_first (services line_up) first start
  /\ handler (services line_up) gw invocation start
     = handler (services line_up) (with_events gw [first]) invocation start.
Proof.
  cbv zeta.
  assert (H1 : truthy_opt (event_body invocation) = true)
    by (vm_compute; reflexivity).
  assert (H2 : truthy_opt (signature_of invocation) = true)
    by (vm_compute; reflexivity).
  split; [exact H1|]. split; [exact H2|].
  split; [reflexivity|]. split; [reflexivity|].
  exact (handler_first_event_only (services line_up)
           (gateway [text_event (js "token 1") (js "hello");
                     text_event (js "token 2") (js "きゃんぷ場調べ")])
           invocation (text_event (js "token 1") (js "hello"))
           [text_event (js "token 2") (js "きゃんぷ場調べ")] start
           H1 H2 eq_refl eq_refl).
Defined.

Lemma state_write_precedes_reply_witness :
  let pre :=
    [mkEvent (GetItemCommand U) true;
     mkEvent (PutItemCommand U
                (mkItem (Some (js "awaiting_conditions_camp"))
                   (Some [("region"%string, VString (js "Tokyo"));
                          ("date"%string, VString (js "3/1"))]))) true] in
  let message :=
    js "希望する条件はありますか？（例：ペットOK、温泉あり、など）" in
  (trace (snd (handle_first (services line_up)
                 (TextMessageEvent U (js "token") (js "3/1")) midflow))
   = trace midflow ++ pre ++ mkEvent (replyMessage (js "token") message) true :: []
   \/ trace (snd (handleStateMessage (services line_up) U (js "token")
                    (js "3/1") (js "awaiting_date_camp") midflow))
      = trace midflow ++ pre
        ++ mkEvent (replyMessage (js "token") message) true :: [])
  /\ some_put pre /\ no_put (Other:=unit) [].
Proof.
  cbv zeta.
  match goal with
  | |- ?H /\ _ => assert (Hyp : H) by (right; vm_compute; reflexivity)
  end.
  split; [exact Hyp|].
  exact (state_write_precedes_reply (services line_up) U (js "token")
           (js "3/1") (js "awaiting_date_camp") midflow _ _ _ _ _ Hyp).
Defined.

(** C7, as stated, fails on the echo endpoint of [src/handler.ts], the other
    entry point the claim cites: it loops over the batch and replies to
    every text message of it, the second as well as the first. *)
Example webhook_echoes_every_text_message :
  let gw := gateway [text_event (js "token 1") (js "hello");
                     text_event (js "token 2") (js "again")] in
  trace (snd (webhook (services line_up) gw invocation start))
  = [mkEvent (replyMessage (js "token 1") (js "hello")) true;
     mkEvent (replyMessage (js "token 2") (js "again")) true].
Proof. vm_compute. reflexivity. Qed.

(** * Further properties *)

(** ** The pieces of [pushMessage] *)

Lemma split_messages_bounds (fuel i : nat) (text : jsstring) :
  Forall (fun piece => (0 < length piece <= 5000)%nat)
         (split_messages fuel i text).
Proof.
  revert i. induction fuel as [|fuel IH]; intros i; [constructor|].
  rewrite split_messages_S. destruct (i <? length text)%nat eqn:Hi.
  - apply Nat.ltb_lt in Hi. constructor; [|apply IH].
    rewrite length_take, length_drop. lia.
  - constructor.
Qed.

Lemma split_messages_count (fuel i : nat) (text : jsstring) :
  (length text - i <= fuel)%nat ->
  length (split_messages fuel i text)
  = ((length text - i + 4999) / 5000)%nat.
Proof.
  revert i. induction fuel as [|fuel IH]; intros i Hfuel.
  - cbn [split_messages length].
    replace (length text - i)%nat with 0%nat by lia. reflexivity.
  - rewrite split_messages_S. destruct (i <? length text)%nat eqn:Hi.
    + apply Nat.ltb_lt in Hi. cbn [length]. rewrite IH by lia.
      destruct (decide (length text - i <= 5000)%nat) as [Hle|Hgt].
      * replace (length text - (i + 5000))%nat with 0%nat by lia.
        rewrite (Nat.div_small (0 + 4999) 5000) by lia.
        apply (Nat.div_unique _ _ 1%nat (length text - i - 1)%nat); lia.
      * replace (length text - i + 4999)%nat
          with ((length text - (i + 5000) + 4999) + 1 * 5000)%nat by lia.
        rewrite Nat.div_add by lia. lia.
    + apply Nat.ltb_ge in Hi. cbn [length].
      replace (length text - i)%nat with 0%nat by lia. reflexivity.
Qed.

(** X1: the messages [pushMessage] cuts a text into are the text, in order;
    each holds at least one and at most 5000 code units; there are as many
    as the length divided by 5000, rounded up, so none for the empty
    text. *)
Theorem pushMessage_pieces (text : jsstring) :
  let pieces := split_messages (length text) 0 text in
  concat pieces = text
  /\ Forall (fun piece => (0 < length piece <= 5000)%nat) pieces
  /\ length pieces = ((length text + 4999) / 5000)%nat.
Proof.
  cbv zeta. split; [apply split_messages_concat|].
  split; [apply split_messages_bounds|].
  rewrite split_messages_count by lia. by rewrite Nat.sub_0_r.
Qed.

Section Deliveries.

Context {Other : Type} (sv : Services Other).

(** A loop of calls to LINE issues the calls in order up to the first one
    that throws. *)
Lemma for_of_line_calls {A} (g : A -> Call Other) (arr : list A)
    (w : World Other) :
  let run := for_of arr (fun x => line_call sv (g x)) w in
  exists evs,
    snd run = mkWorld (table w) (trace w ++ evs)
    /\ map call evs = take (length evs) (map g arr)
    /\ match fst run with
       | Ok _ => length evs = length arr /\ all_returned evs
       | Throw =>
         exists pre c, evs = pre ++ [mkEvent c false] /\ all_returned pre
       end.
Proof.
  cbv zeta. revert w. induction arr as [|x r IH]; intros w.
  - exists []. cbn. split; [apply world_eta|]. repeat split; constructor.
  - cbn [for_of]. set (run := bind _ _ w).
    destruct (line_returns sv (trace w) (g x)) eqn:Hr.
    + assert (Hrun : run = for_of r (fun x => line_call sv (g x))
                             (record (g x) true w)).
      { unfold run, bind, line_call. by rewrite Hr. }
      rewrite Hrun.
      destruct (IH (record (g x) true w)) as (evs & Hw & Hcalls & Hout).
      exists (mkEvent (g x) true :: evs).
      split; [rewrite Hw; unfold record; cbn; by rewrite <- app_assoc|].
      split; [cbn; by rewrite Hcalls|].
      destruct (fst (for_of r _ _)).
      * destruct Hout as [Hlen Hall]. split; [cbn; by rewrite Hlen|].
        by constructor.
      * destruct Hout as (pre & c & -> & Hpre).
        exists (mkEvent (g x) true :: pre), c. split; [done|].
        by constructor.
    + assert (Hrun : run = (Throw, record (g x) false w)).
      { unfold run, bind, line_call. by rewrite Hr. }
      rewrite Hrun.
      exists [mkEvent (g x) false]. cbn. split; [done|]. split; [done|].
      exists [], (g x). split; [done|constructor].
Qed.

(** X2: [pushMessage] leaves the table as it is and pushes the pieces of
    the text to the user in order; it returns when every piece was taken,
    and throws at the first piece that LINE rejects, the pieces after it not
    being pushed.  For the empty text it calls nothing and returns. *)
Theorem pushMessage_deliveries (uid text : jsstring) (w : World Other) :
  let run := pushMessage sv uid text w in
  let pieces := split_messages (length text) 0 text in
  (exists evs,
     snd run = mkWorld (table w) (trace w ++ evs)
     /\ map call evs = take (length evs) (map (pushTextMessage uid) pieces)
     /\ match fst run with
        | Ok _ => length evs = length pieces /\ all_returned evs
        | Throw =>
          exists pre c, evs = pre ++ [mkEvent c false] /\ all_returned pre
        end)
  /\ pushMessage sv uid [] w = (Ok tt, w).
Proof.
  cbv zeta. split; [|reflexivity].
  exact (for_of_line_calls (pushTextMessage uid) _ w).
Qed.

End Deliveries.

(** ** More on the parsers *)

Lemma numbered123_matches (line : jsstring) :
  numbered123 line = true -> matches_number_dot line = true.
Proof.
  assert (Hlen : forall n : nat, (S n =? S (S n))%nat = false).
  { intros n. apply Nat.eqb_neq. lia. }
  assert (Hstart : forall (d : N) (l : jsstring),
             is_digit d = true -> startsWith l [d; DOT] = true ->
             matches_number_dot l = true).
  { intros d [|a [|b r]] Hd H; cbn in H; try done.
    - by rewrite andb_false_r in H.
    - apply andb_true_iff in H as [Ha Hb].
      apply andb_true_iff in Hb as [Hb _].
      apply N.eqb_eq in Ha. apply N.eqb_eq in Hb. subst a b.
      unfold matches_number_dot. cbn [skip]. rewrite Hd.
      change (is_digit DOT) with false. cbn [length startsWith].
      rewrite Hlen, N.eqb_refl. by destruct r. }
  unfold numbered123. intros H.
  apply orb_true_iff in H as [H|H]; [apply orb_true_iff in H as [H|H]|].
  - by apply (Hstart 49).
  - by apply (Hstart 50).
  - by apply (Hstart 51).
Qed.

Lemma omap_all_none {A} (f : jsstring -> option A) (lines : list jsstring) :
  Forall (fun line => f line = None) lines -> omap f lines = [].
Proof.
  induction 1 as [|line lines Hline _ IH]; [done|].
  change (omap f (line :: lines))
    with (match f line with
          | Some x => x :: omap f lines
          | None => omap f lines
          end).
  by rewrite Hline.
Qed.

Lemma yaychi_fold_without_numbers (lines : list jsstring)
    (acc : list YaychiInfo) (cur : YaychiInfo) :
  Forall (fun line => numbered123 (trim line) = false) lines ->
  yaychi_name cur = None ->
  exists cur', fold_left parseYaychi_step lines (acc, cur) = (acc, cur')
               /\ yaychi_name cur' = None.
Proof.
  intros Hlines. revert cur.
  induction Hlines as [|line lines Hline _ IH]; intros cur Hcur.
  - by exists cur.
  - cbn [fold_left]. unfold parseYaychi_step at 2. rewrite Hline.
    destruct (includes (trim line) label_spot); [by apply IH|].
    destruct (includes (trim line) label_description); by apply IH.
Qed.

(** X3: a text none of whose lines, trimmed, starts with digits and a dot
    gives no record in any of the three parsers; so does an absent content
    in the camp parser. *)
Theorem parsers_without_numbered_line (text : jsstring) :
  Forall (fun line => matches_number_dot (trim line) = false)
         (split text [LF]) ->
  parseResponse (Some text) = []
  /\ parseYaychiResponse text = []
  /\ parseItemResponse text = []
  /\ parseResponse None = [].
Proof.
  intros Hlines.
  assert (H123 : Forall (fun line => numbered123 (trim line) = false)
                        (split text [LF])).
  { eapply Forall_impl; [exact Hlines|]. intros line Hline.
    destruct (numbered123 (trim line)) eqn:E; [|done].
    apply numbered123_matches in E. congruence. }
  repeat split.
  - rewrite parseResponse_lines. apply omap_all_none.
    eapply Forall_impl; [exact H123|]. intros line Hline.
    unfold camp_of_line. cbv zeta. rewrite Hline. by rewrite andb_false_r.
  - unfold parseYaychiResponse.
    destruct (yaychi_fold_without_numbers _ [] emptyInfo H123 eq_refl)
      as (cur' & -> & Hname).
    by rewrite Hname.
  - rewrite parseItemResponse_lines. apply omap_all_none.
    eapply Forall_impl; [exact Hlines|]. intros line Hline.
    unfold item_of_line. cbv zeta. by rewrite Hline.
Qed.

Lemma parsers_without_numbered_line_witness :
  Forall (fun line => matches_number_dot (trim line) = false)
         (split (lines_js [js "No camp site was found."; js ""; js "Sorry: 3."])
                [LF])
  /\ parseResponse
       (Some (lines_js [js "No camp site was found."; js ""; js "Sorry: 3."]))
     = []
  /\ parseYaychiResponse
       (lines_js [js "No camp site was found."; js ""; js "Sorry: 3."]) = []
  /\ parseItemResponse
       (lines_js [js "No camp site was found."; js ""; js "Sorry: 3."]) = []
  /\ parseResponse None = [].
Proof.
  assert (H : Forall (fun line => matches_number_dot (trim line) = false)
                (split (lines_js [js "No camp site was found."; js "";
                                  js "Sorry: 3."]) [LF])).
  { vm_compute. repeat constructor. }
  split; [exact H|].
  exact (parsers_without_numbered_line _ H).
Defined.

Lemma Forall_omap {A} (P : A -> Prop) (f : jsstring -> option A)
    (lines : list jsstring) :
  (forall line x, f line = Some x -> P x) -> Forall P (omap f lines).
Proof.
  intros Hf. induction lines as [|line lines IH]; [constructor|].
  change (omap f (line :: lines))
    with (match f line with
          | Some x => x :: omap f lines
          | None => omap f lines
          end).
  destruct (f line) as [x|] eqn:E; [|done].
  constructor; [by apply (Hf line)|done].
Qed.

Lemma yaychi_fold_invariant (P : YaychiInfo -> Prop) (Q : YaychiInfo -> Prop)
    (lines : list jsstring) (acc : list YaychiInfo) (cur : YaychiInfo) :
  (forall info, Q info -> truthy_opt (yaychi_name info) = true -> P info) ->
  (forall info line,
      Q info -> Q (snd (parseYaychi_step ([], info) line))) ->
  Forall P acc -> Q cur ->
  Forall P (fst (fold_left parseYaychi_step lines (acc, cur)))
  /\ Q (snd (fold_left parseYaychi_step lines (acc, cur))).
Proof.
  intros HPQ Hstep. revert acc cur.
  induction lines as [|line lines IH]; intros acc cur Hacc Hcur; [done|].
  cbn [fold_left].
  assert (Hsnd : snd (parseYaychi_step (acc, cur) line)
                 = snd (parseYaychi_step ([], cur) line)).
  { unfold parseYaychi_step.
    destruct (numbered123 _); [done|].
    destruct (includes _ label_spot); [done|].
    by destruct (includes _ label_description). }
  destruct (parseYaychi_step (acc, cur) line) as [acc' cur'] eqn:E.
  apply IH.
  - unfold parseYaychi_step in E.
    destruct (numbered123 _).
    + injection E as <- _.
      destruct (truthy_opt (yaychi_name cur)) eqn:Hname; [|done].
      apply Forall_app_2; [done|]. constructor; [by apply HPQ|constructor].
    + destruct (includes _ label_spot); [by injection E as <- _|].
      destruct (includes _ label_description); by injection E as <- _.
  - cbn [snd] in Hsnd. rewrite Hsnd. by apply Hstep.
Qed.

Lemma parseYaychiResponse_invariant (P Q : YaychiInfo -> Prop)
    (text : jsstring) :
  (forall info, Q info -> truthy_opt (yaychi_name info) = true -> P info) ->
  (forall info line,
      Q info -> Q (snd (parseYaychi_step ([], info) line))) ->
  Q emptyInfo ->
  Forall P (parseYaychiResponse text).
Proof.
  intros HPQ Hstep Hempty. unfold parseYaychiResponse.
  destruct (yaychi_fold_invariant P Q (split text [LF]) [] emptyInfo
              HPQ Hstep (Forall_nil_2 _) Hempty) as [Hacc Hcur].
  destruct (fold_left _ _ _) as [acc cur]. cbn [fst snd] in Hacc, Hcur.
  apply Forall_take.
  destruct (truthy_opt (yaychi_name cur)) eqn:Hname; [|done].
  apply Forall_app_2; [done|]. constructor; [by apply HPQ|constructor].
Qed.

(** X4: every record the Yaychi parser returns has a name that is present
    and not empty: a numbered line whose name is empty starts no record. *)
Theorem parseYaychiResponse_names_present (text : jsstring) :
  Forall (fun info => exists name,
              yaychi_name info = Some name /\ (0 < length name)%nat)
         (parseYaychiResponse text).
Proof.
  apply (parseYaychiResponse_invariant _ (fun _ => True)); [|done..].
  intros info _ Hname. destruct (yaychi_name info) as [name|]; [|done].
  exists name. split; [done|].
  unfold truthy_opt, truthy in Hname. destruct name; [done|cbn; lia].
Qed.

(** X5: the camp parser never gives a homepage, so in the Flex message made
    from a completion every bubble keeps the link of the template, and
    bubble [i] has for title the name of record [i] when there is one. *)
Theorem camp_flex_keeps_template_links {Other : Type}
    (flexCamp : Template Other (CampBubble Other))
    (content : option jsstring) (i : nat) :
  let campInfo := parseResponse content in
  let out := contents (flex_contents (createCampFlexMessage flexCamp campInfo)) in
  Forall (fun camp => homepage_url camp = None) campInfo
  /\ camp_uri <$> out !! i = camp_uri <$> contents flexCamp !! i
  /\ camp_title <$> out !! i
     = match campInfo !! i with
       | Some camp => (fun _ => Some (camp_name camp)) <$> contents flexCamp !! i
       | None => camp_title <$> contents flexCamp !! i
       end.
Proof.
  cbv zeta.
  assert (Hurl : Forall (fun camp => homepage_url camp = None)
                        (parseResponse content)).
  { destruct content as [text|]; [|constructor].
    rewrite parseResponse_lines. apply Forall_omap.
    intros line camp. unfold camp_of_line. cbv zeta.
    destruct (_ && _); [|done]. by intros [= <-]. }
  split; [exact Hurl|].
  rewrite camp_bubbles_lookup.
  destruct (parseResponse content !! i) as [camp|] eqn:Hcamp; [|done].
  rewrite Forall_lookup in Hurl. specialize (Hurl _ _ Hcamp).
  destruct (contents flexCamp !! i) as [bubble|]; [|done].
  cbn. unfold write_camp. rewrite Hurl. done.
Qed.

(** *** [trim] *)

Lemma skip_length (p : N -> bool) (s : jsstring) :
  (length (skip p s) <= length s)%nat.
Proof.
  induction s as [|c r IH]; cbn [skip]; [done|].
  destruct (p c); cbn [length]; lia.
Qed.

Lemma skip_idempotent (p : N -> bool) (s : jsstring) :
  skip p (skip p s) = skip p s.
Proof.
  induction s as [|c r IH]; cbn [skip]; [done|].
  destruct (p c) eqn:E; [done|]. cbn [skip]. by rewrite E.
Qed.

Lemma skip_suffix (p : N -> bool) (s : jsstring) :
  exists pre, s = pre ++ skip p s.
Proof.
  induction s as [|c r [pre IH]]; cbn [skip]; [by exists []|].
  destruct (p c); [|by exists []].
  exists (c :: pre). cbn. by rewrite <- IH.
Qed.

(** A text that starts with no white space keeps this when it loses a
    suffix. *)
Lemma skip_fixed_prefix (p : N -> bool) (u v : jsstring) :
  skip p (u ++ v) = u ++ v -> skip p u = u.
Proof.
  destruct u as [|c u]; [done|]. cbn [app skip].
  destruct (p c); [|done]. intros H.
  pose proof (skip_length p (u ++ v)) as Hlen.
  rewrite H in Hlen. cbn [length] in Hlen. lia.
Qed.

Lemma trim_idempotent (s : jsstring) : trim (trim s) = trim s.
Proof.
  unfold trim, trimStart.
  set (a := skip is_ws s).
  assert (Ha : skip is_ws a = a) by apply skip_idempotent.
  unfold trimEnd at 2.
  set (t := skip is_ws (rev a)).
  assert (Ht : skip is_ws t = t) by apply skip_idempotent.
  destruct (skip_suffix is_ws (rev a)) as [pre Hpre]. fold t in Hpre.
  assert (Hsplit : a = rev t ++ rev pre).
  { rewrite <- rev_app_distr, <- Hpre. by rewrite rev_involutive. }
  rewrite Hsplit in Ha. apply skip_fixed_prefix in Ha.
  rewrite Ha. unfold trimEnd. by rewrite rev_involutive, Ht.
Qed.

Lemma trimmed_trim (s : jsstring) : trimmed (trim s).
Proof. apply trim_idempotent. Qed.

Lemma after_label_trimmed (line label : jsstring) :
  trimmed (after_label line label).
Proof.
  unfold after_label. destruct (split line label !! 1%nat) as [piece|].
  - destruct (truthy (trim piece)); [apply trimmed_trim|done].
  - done.
Qed.

(** X6: the texts the parsers put in their records carry no white space at
    either end: the names of the camp records, the names and descriptions of
    the item records, and the names, spots and descriptions of the Yaychi
    records are left as they are by [trim]. *)
Theorem parsed_fields_trimmed (content : option jsstring) (text : jsstring) :
  Forall (fun camp => trimmed (camp_name camp)) (parseResponse content)
  /\ Forall (fun item => trimmed (item_name item)
                         /\ trimmed (item_description item))
            (parseItemResponse text)
  /\ Forall (fun info => trimmed_opt (yaychi_name info)
                         /\ trimmed_opt (spot info)
                         /\ trimmed_opt (description info))
            (parseYaychiResponse text).
Proof.
  split; [|split].
  - destruct content as [c|]; [|constructor].
    rewrite parseResponse_lines. apply Forall_omap.
    intros line camp. unfold camp_of_line. cbv zeta.
    destruct (_ && _); [|done]. intros [= <-]. apply trimmed_trim.
  - rewrite parseItemResponse_lines. apply Forall_omap.
    intros line item. unfold item_of_line. cbv zeta.
    destruct (matches_number_dot _); [|done].
    destruct (split _ _) as [|p0 [|p1 rest]]; [done..|].
    intros [= <-]. split; apply trimmed_trim.
  - apply (parseYaychiResponse_invariant _
             (fun info => trimmed_opt (yaychi_name info)
                          /\ trimmed_opt (spot info)
                          /\ trimmed_opt (description info))).
    + by intros info H _.
    + intros info line (Hn & Hs & Hd). unfold parseYaychi_step.
      destruct (numbered123 _).
      { cbn. split; [apply trimmed_trim|done]. }
      destruct (includes _ label_spot).
      { cbn. split; [done|]. split; [apply after_label_trimmed|done]. }
      destruct (includes _ label_description); [|done].
      cbn. split; [done|]. split; [done|apply after_label_trimmed].
    + done.
Qed.

(** ** The table of the users *)

Section Store.

Context {Other : Type} (sv : Services Other).

Implicit Types (w : World Other).

Lemma json_clone_fields_strings (d : list (string * JsVal)) :
  strings_only d -> json_clone_fields d = d.
Proof.
  unfold json_clone_fields. cbn [json_clone].
  induction 1 as [|[k v] d [s Hv] _ IH]; [done|].
  cbn [snd] in Hv. subst v. by rewrite IH.
Qed.

(** X7: what [putStateWithData] stores is read back, for collected data
    whose fields are strings under distinct, ordinary names: after it
    [getState] gives the state, [getStateData] without a key gives the
    collected data, and [getStateData] with a key that is not empty and is
    no inherited name gives the field of that key, [undefined] when the
    data has no such field. *)
Theorem state_round_trip (uid st : jsstring) (d : list (string * JsVal))
    (key : string) w :
  strings_only d ->
  plain_fields d ->
  ordinary_key key ->
  let w1 := snd (putStateWithData (Other:=Other) uid st d w) in
  fst (getState uid w1) = Ok (Some st)
  /\ fst (getStateData uid None w1) = Ok (VObject d)
  /\ fst (getStateData uid (Some key) w1) = Ok (get_field d key)
  /\ (if bool_decide (key ∈ map fst d) then True
      else get_field d key = VUndefined).
Proof.
  intros Hd _ [Hkey _]. cbv zeta.
  unfold putStateWithData, ddb_put. cbn [snd].
  rewrite (json_clone_fields_strings d Hd).
  unfold getState, getStateData, bind, ddb_get. cbn [table].
  rewrite lookup_insert_eq. cbn.
  replace (key =? "")%string with false
    by (symmetry; by apply String.eqb_neq).
  repeat split.
  case_bool_decide as Hin; [done|].
  clear -Hin. induction d as [|[k v] d IH]; [done|].
  cbn in Hin |- *. rewrite not_elem_of_cons in Hin. destruct Hin as [Hk Hd].
  destruct (String.eqb_spec k key) as [->|_]; [done|]. by apply IH.
Qed.

(** X8: [clearState] leaves the item of the user with the key alone,
    whatever it held: after it [getState] gives no state and [getStateData]
    gives the empty object, with a key as well as without; clearing twice
    leaves the table as clearing once; and [saveUserId] does to the table
    what [clearState] does. *)
Theorem clearState_round_trip (uid : jsstring) (key : option string) w :
  let w1 := snd (clearState (Other:=Other) uid w) in
  table w1 !! uid = Some (mkItem None None)
  /\ fst (getState uid w1) = Ok None
  /\ fst (getStateData uid key w1) = Ok (VObject [])
  /\ table (snd (clearState uid w1)) = table w1
  /\ table (snd (saveUserId uid w)) = table w1.
Proof.
  cbv zeta. unfold clearState, saveUserId, ddb_put. cbn [snd table].
  split; [apply lookup_insert_eq|].
  unfold getState, getStateData, bind, ddb_get. cbn [table].
  rewrite lookup_insert_eq. cbn.
  split; [done|]. split; [done|]. split; [apply insert_insert_eq|done].
Qed.

End Store.

Lemma state_round_trip_witness :
  strings_only [("region"%string, VString (js "Tokyo"))]
  /\ plain_fields [("region"%string, VString (js "Tokyo"))]
  /\ ordinary_key "region"
  /\ let w1 := snd (putStateWithData (Other:=unit) U (js "awaiting_date_camp")
                      [("region"%string, VString (js "Tokyo"))] start) in
     fst (getState U w1) = Ok (Some (js "awaiting_date_camp"))
     /\ fst (getStateData U None w1)
        = Ok (VObject [("region"%string, VString (js "Tokyo"))])
     /\ fst (getStateData U (Some "region"%string) w1)
        = Ok (get_field [("region"%string, VString (js "Tokyo"))] "region")
     /\ (if bool_decide
               ("region"%string
                ∈ map fst [("region"%string, VString (js "Tokyo"))])
         then True
         else get_field [("region"%string, VString (js "Tokyo"))] "region"
              = VUndefined).
Proof.
  assert (Hnames : "region"%string ∉ object_prototype_names).
  { unfold object_prototype_names. rewrite !not_elem_of_cons.
    repeat split; try discriminate. apply not_elem_of_nil. }
  assert (H1 : strings_only [("region"%string, VString (js "Tokyo"))])
    by (repeat constructor; by eexists).
  assert (H2 : plain_fields [("region"%string, VString (js "Tokyo"))]).
  { split; [|by repeat constructor].
    cbn. apply NoDup_singleton. }
  assert (H3 : ordinary_key "region") by (split; [discriminate|exact Hnames]).
  split; [exact H1|]. split; [exact H2|]. split; [exact H3|].
  exact (state_round_trip U (js "awaiting_date_camp") _ "region" start
           H1 H2 H3).
Defined.

(** ** The steps of the flows *)

Section Steps.

Context {Other : Type} (sv : Services Other).

Implicit Types (w : World Other).

Lemma getStateData_stored uid st d w :
  table w !! uid = Some (mkItem st (Some d)) ->
  getStateData uid None w = (Ok (VObject d), record (GetItemCommand uid) true w)
  /\ forall key, key <> ""%string ->
       getStateData uid (Some key) w
       = (Ok (get_field d key), record (GetItemCommand uid) true w).
Proof.
  intros Hw. unfold getStateData, bind, ddb_get. rewrite Hw.
  split; [done|]. intros key Hkey.
  replace (key =? "")%string with false
    by (symmetry; by apply String.eqb_neq).
  done.
Qed.

Lemma getStateData_missing uid key w :
  (table w !! uid) ≫= data = None ->
  getStateData uid key w = (Ok (VObject []), record (GetItemCommand uid) true w).
Proof.
  intros Hw. unfold getStateData, bind, ddb_get.
  destruct (table w !! uid) as [[st [d|]]|]; done.
Qed.

(** A step that stores and asks for the next field. *)
Lemma step_put uid st d replyToken message w :
  exists b,
    snd (bind (putStateWithData uid st d)
              (fun _ => reply sv replyToken message) w)
    = mkWorld (<[uid := mkItem (Some st) (Some (json_clone_fields d))]> (table w))
        (trace w
         ++ [mkEvent (PutItemCommand uid
                        (mkItem (Some st) (Some (json_clone_fields d)))) true;
             mkEvent (replyMessage replyToken message) b]).
Proof.
  unfold bind, putStateWithData, ddb_put, reply, line_call, record.
  cbn [trace table].
  destruct (line_returns sv _ _); eexists; cbn [snd];
    rewrite <- app_assoc; reflexivity.
Qed.

(** A step that reads the collected data, stores and asks for the next
    field. *)
Lemma step_get_put uid key (fields : JsVal -> list (string * JsVal)) st
    replyToken message v w :
  getStateData uid key w = (Ok v, record (GetItemCommand uid) true w) ->
  exists b,
    snd (bind (getStateData uid key)
              (fun x => bind (putStateWithData uid st (fields x))
                             (fun _ => reply sv replyToken message)) w)
    = mkWorld
        (<[uid := mkItem (Some st) (Some (json_clone_fields (fields v)))]>
           (table w))
        (trace w
         ++ [mkEvent (GetItemCommand uid) true;
             mkEvent (PutItemCommand uid
                        (mkItem (Some st)
                           (Some (json_clone_fields (fields v))))) true;
             mkEvent (replyMessage replyToken message) b]).
Proof.
  intros Hget. unfold bind at 1. rewrite Hget.
  destruct (step_put uid st (fields v) replyToken message
              (record (GetItemCommand uid) true w)) as [b Hb].
  exists b. rewrite Hb. unfold record. cbn [table trace].
  by rewrite <- app_assoc.
Qed.

(** The last step of a flow: it reads the collected data, clears the item
    and runs the terminal action. *)
Lemma step_terminal uid (action : JsVal -> M Other unit) v w :
  getStateData uid None w = (Ok v, record (GetItemCommand uid) true w) ->
  bind (getStateData uid None)
       (fun x => bind (clearState uid) (fun _ => action x)) w
  = action v (snd (clearState uid (record (GetItemCommand uid) true w))).
Proof. intros Hget. unfold bind at 1. by rewrite Hget. Qed.

Lemma cleared_then_talks uid (action : M Other unit) w :
  talks outbound action ->
  table (snd (action (snd (clearState uid w)))) !! uid
  = Some (mkItem None None).
Proof.
  intros Htalks. rewrite (talks_table outbound) by done.
  apply lookup_insert_eq.
Qed.

(** X9: the three steps of the camp flow compose: from any table, the
    region step stores the region and asks for the date, the date step adds
    the date to the stored region and asks for the conditions, and the
    conditions step clears the item and runs the camp action on the stored
    region, the stored date and the conditions. *)
Theorem camp_flow_steps (uid token1 token2 token3 region date conditions : jsstring)
    w :
  let w1 := snd (handleStateMessage sv uid token1 region
                   (js "awaiting_region_camp") w) in
  let w2 := snd (handleStateMessage sv uid token2 date
                   (js "awaiting_date_camp") w1) in
  let item1 := mkItem (Some (js "awaiting_date_camp"))
                 (Some [("region"%string, VString region)]) in
  let item2 := mkItem (Some (js "awaiting_conditions_camp"))
                 (Some [("region"%string, VString region);
                        ("date"%string, VString date)]) in
  (exists b,
     w1 = mkWorld (<[uid := item1]> (table w))
            (trace w
             ++ [mkEvent (PutItemCommand uid item1) true;
                 mkEvent (replyMessage token1
                            (js "行きたい日にちを教えてください。")) b]))
  /\ (exists b,
     w2 = mkWorld (<[uid := item2]> (table w1))
            (trace w1
             ++ [mkEvent (GetItemCommand uid) true;
                 mkEvent (PutItemCommand uid item2) true;
                 mkEvent (replyMessage token2
                   (js "希望する条件はありますか？（例：ペットOK、温泉あり、など）")) b]))
  /\ handleStateMessage sv uid token3 conditions
       (js "awaiting_conditions_camp") w2
     = handleCampInfo sv uid token3 (VString region) (VString date) conditions
         (snd (clearState uid (record (GetItemCommand uid) true w2)))
  /\ table (snd (handleStateMessage sv uid token3 conditions
                   (js "awaiting_conditions_camp") w2)) !! uid
     = Some (mkItem None None).
Proof.
  cbv zeta.
  assert (H1 : exists b,
    snd (handleStateMessage sv uid token1 region (js "awaiting_region_camp") w)
    = mkWorld (<[uid := mkItem (Some (js "awaiting_date_camp"))
                          (Some [("region"%string, VString region)])]> (table w))
        (trace w
         ++ [mkEvent (PutItemCommand uid
                        (mkItem (Some (js "awaiting_date_camp"))
                           (Some [("region"%string, VString region)]))) true;
             mkEvent (replyMessage token1
                        (js "行きたい日にちを教えてください。")) b])).
  { unfold handleStateMessage. decide_eqb_js. cbv iota. apply step_put. }
  split; [exact H1|]. destruct H1 as [b1 ->].
  set (w1 := mkWorld _ _).
  assert (Hitem1 : table w1 !! uid
                   = Some (mkItem (Some (js "awaiting_date_camp"))
                             (Some [("region"%string, VString region)])))
    by apply lookup_insert_eq.
  destruct (getStateData_stored _ _ _ _ Hitem1) as [_ Hkey1].
  assert (H2 : exists b,
    snd (handleStateMessage sv uid token2 date (js "awaiting_date_camp") w1)
    = mkWorld (<[uid := mkItem (Some (js "awaiting_conditions_camp"))
                          (Some [("region"%string, VString region);
                                 ("date"%string, VString date)])]> (table w1))
        (trace w1
         ++ [mkEvent (GetItemCommand uid) true;
             mkEvent (PutItemCommand uid
                        (mkItem (Some (js "awaiting_conditions_camp"))
                           (Some [("region"%string, VString region);
                                  ("date"%string, VString date)]))) true;
             mkEvent (replyMessage token2
               (js "希望する条件はありますか？（例：ペットOK、温泉あり、など）")) b])).
  { unfold handleStateMessage. decide_eqb_js. cbv iota.
    apply (step_get_put uid (Some "region"%string)
             (fun x => [("region"%string, x); ("date"%string, VString date)])
             _ _ _ (VString region)).
    by apply Hkey1. }
  split; [exact H2|]. destruct H2 as [b2 ->].
  set (w2 := mkWorld _ (trace w1 ++ _)).
  assert (Hitem2 : table w2 !! uid
                   = Some (mkItem (Some (js "awaiting_conditions_camp"))
                             (Some [("region"%string, VString region);
                                    ("date"%string, VString date)])))
    by apply lookup_insert_eq.
  destruct (getStateData_stored _ _ _ _ Hitem2) as [Hall2 _].
  assert (H3 : handleStateMessage sv uid token3 conditions
                 (js "awaiting_conditions_camp") w2
               = handleCampInfo sv uid token3 (VString region) (VString date)
                   conditions
                   (snd (clearState uid (record (GetItemCommand uid) true w2)))).
  { unfold handleStateMessage. decide_eqb_js. cbv iota.
    exact (step_terminal uid
             (fun x => handleCampInfo sv uid token3 (field_of x "region")
                         (field_of x "date") conditions) _ w2 Hall2). }
  split; [exact H3|]. rewrite H3.
  apply cleared_then_talks, handleCampInfo_talks.
Qed.


(** X10: the three steps of the item flow compose in the same way: the
    location step stores the location and asks for the duration, the
    duration step adds the duration and asks for the conditions, and the
    conditions step clears the item and runs the item suggestion on the
    stored location, the stored duration and the conditions. *)
Theorem item_flow_steps (uid token1 token2 token3 location duration conditions : jsstring)
    w :
  let w1 := snd (handleStateMessage sv uid token1 location
                   (js "awaiting_location_items") w) in
  let w2 := snd (handleStateMessage sv uid token2 duration
                   (js "awaiting_duration_items") w1) in
  let item1 := mkItem (Some (js "awaiting_duration_items"))
                 (Some [("location"%string, VString location)]) in
  let item2 := mkItem (Some (js "awaiting_conditions_items"))
                 (Some [("location"%string, VString location);
                        ("duration"%string, VString duration)]) in
  (exists b,
     w1 = mkWorld (<[uid := item1]> (table w))
            (trace w
             ++ [mkEvent (PutItemCommand uid item1) true;
                 mkEvent (replyMessage token1
                            (js "滞在期間を教えてください。")) b]))
  /\ (exists b,
     w2 = mkWorld (<[uid := item2]> (table w1))
            (trace w1
             ++ [mkEvent (GetItemCommand uid) true;
                 mkEvent (PutItemCommand uid item2) true;
                 mkEvent (replyMessage token2
                   (js "その他の特別な条件があれば教えてください。（例：雨の可能性がある、子供連れ、など）")) b]))
  /\ handleStateMessage sv uid token3 conditions
       (js "awaiting_conditions_items") w2
     = handleItemSuggestion sv uid token3 (VString location) (VString duration) conditions
         (snd (clearState uid (record (GetItemCommand uid) true w2)))
  /\ table (snd (handleStateMessage sv uid token3 conditions
                   (js "awaiting_conditions_items") w2)) !! uid
     = Some (mkItem None None).
Proof.
  cbv zeta.
  assert (H1 : exists b,
    snd (handleStateMessage sv uid token1 location (js "awaiting_location_items") w)
    = mkWorld (<[uid := mkItem (Some (js "awaiting_duration_items"))
                          (Some [("location"%string, VString location)])]> (table w))
        (trace w
         ++ [mkEvent (PutItemCommand uid
                        (mkItem (Some (js "awaiting_duration_items"))
                           (Some [("location"%string, VString location)]))) true;
             mkEvent (replyMessage token1
                        (js "滞在期間を教えてください。")) b])).
  { unfold handleStateMessage. decide_eqb_js. cbv iota. apply step_put. }
  split; [exact H1|]. destruct H1 as [b1 ->].
  set (w1 := mkWorld _ _).
  assert (Hitem1 : table w1 !! uid
                   = Some (mkItem (Some (js "awaiting_duration_items"))
                             (Some [("location"%string, VString location)])))
    by apply lookup_insert_eq.
  destruct (getStateData_stored _ _ _ _ Hitem1) as [_ Hkey1].
  assert (H2 : exists b,
    snd (handleStateMessage sv uid token2 duration (js "awaiting_duration_items") w1)
    = mkWorld (<[uid := mkItem (Some (js "awaiting_conditions_items"))
                          (Some [("location"%string, VString location);
                                 ("duration"%string, VString duration)])]> (table w1))
        (trace w1
         ++ [mkEvent (GetItemCommand uid) true;
             mkEvent (PutItemCommand uid
                        (mkItem (Some (js "awaiting_conditions_items"))
                           (Some [("location"%string, VString location);
                                  ("duration"%string, VString duration)]))) true;
             mkEvent (replyMessage token2
               (js "その他の特別な条件があれば教えてください。（例：雨の可能性がある、子供連れ、など）")) b])).
  { unfold handleStateMessage. decide_eqb_js. cbv iota.
    apply (step_get_put uid (Some "location"%string)
             (fun x => [("location"%string, x); ("duration"%string, VString duration)])
             _ _ _ (VString location)).
    by apply Hkey1. }
  split; [exact H2|]. destruct H2 as [b2 ->].
  set (w2 := mkWorld _ (trace w1 ++ _)).
  assert (Hitem2 : table w2 !! uid
                   = Some (mkItem (Some (js "awaiting_conditions_items"))
                             (Some [("location"%string, VString location);
                                    ("duration"%string, VString duration)])))
    by apply lookup_insert_eq.
  destruct (getStateData_stored _ _ _ _ Hitem2) as [Hall2 _].
  assert (H3 : handleStateMessage sv uid token3 conditions
                 (js "awaiting_conditions_items") w2
               = handleItemSuggestion sv uid token3 (VString location) (VString duration)
                   conditions
                   (snd (clearState uid (record (GetItemCommand uid) true w2)))).
  { unfold handleStateMessage. decide_eqb_js. cbv iota.
    exact (step_terminal uid
             (fun x => handleItemSuggestion sv uid token3 (field_of x "location")
                         (field_of x "duration") conditions) _ w2 Hall2). }
  split; [exact H3|]. rewrite H3.
  apply cleared_then_talks, handleItemSuggestion_talks.
Qed.

(** X11: the two steps of the Yaychi flow compose: the prefecture step
    stores the prefecture and asks for the conditions, and the conditions
    step clears the item and runs the Yaychi action on the stored prefecture
    and the conditions. *)
Theorem yaychi_flow_steps (uid token1 token2 prefecture conditions : jsstring)
    w :
  let w1 := snd (handleStateMessage sv uid token1 prefecture
                   (js "awaiting_prefecture_yaychi") w) in
  let item1 := mkItem (Some (js "awaiting_conditions_yaychi"))
                 (Some [("prefecture"%string, VString prefecture)]) in
  (exists b,
     w1 = mkWorld (<[uid := item1]> (table w))
            (trace w
             ++ [mkEvent (PutItemCommand uid item1) true;
                 mkEvent (replyMessage token1
                   (js "希望する条件はありますか？（例：川の近く、山の中、など）")) b]))
  /\ handleStateMessage sv uid token2 conditions
       (js "awaiting_conditions_yaychi") w1
     = handleYaychiInfo sv uid token2 (VString prefecture) conditions
         (snd (clearState uid (record (GetItemCommand uid) true w1)))
  /\ table (snd (handleStateMessage sv uid token2 conditions
                   (js "awaiting_conditions_yaychi") w1)) !! uid
     = Some (mkItem None None).
Proof.
  cbv zeta.
  assert (H1 : exists b,
    snd (handleStateMessage sv uid token1 prefecture
           (js "awaiting_prefecture_yaychi") w)
    = mkWorld (<[uid := mkItem (Some (js "awaiting_conditions_yaychi"))
                          (Some [("prefecture"%string, VString prefecture)])]>
                 (table w))
        (trace w
         ++ [mkEvent (PutItemCommand uid
                        (mkItem (Some (js "awaiting_conditions_yaychi"))
                           (Some [("prefecture"%string, VString prefecture)])))
               true;
             mkEvent (replyMessage token1
               (js "希望する条件はありますか？（例：川の近く、山の中、など）")) b])).
  { unfold handleStateMessage. decide_eqb_js. cbv iota. apply step_put. }
  split; [exact H1|]. destruct H1 as [b1 ->].
  set (w1 := mkWorld _ _).
  assert (Hitem1 : table w1 !! uid
                   = Some (mkItem (Some (js "awaiting_conditions_yaychi"))
                             (Some [("prefecture"%string, VString prefecture)])))
    by apply lookup_insert_eq.
  destruct (getStateData_stored _ _ _ _ Hitem1) as [Hall1 _].
  assert (H2 : handleStateMessage sv uid token2 conditions
                 (js "awaiting_conditions_yaychi") w1
               = handleYaychiInfo sv uid token2 (VString prefecture) conditions
                   (snd (clearState uid (record (GetItemCommand uid) true w1)))).
  { unfold handleStateMessage. decide_eqb_js. cbv iota.
    exact (step_terminal uid
             (fun x => handleYaychiInfo sv uid token2 (field_of x "prefecture")
                         conditions) _ w1 Hall1). }
  split; [exact H2|]. rewrite H2.
  apply cleared_then_talks, handleYaychiInfo_talks.
Qed.

(** X12: a stored state that is none of the eight states of the flows is
    dropped: the item is cleared and the message is answered as a general
    message. *)
Theorem unknown_state_resets (uid replyToken text st : jsstring) w :
  st ∉ flow_states ->
  handleStateMessage sv uid replyToken text st w
  = handleGeneralMessage sv replyToken text (snd (clearState uid w))
  /\ table (snd (handleStateMessage sv uid replyToken text st w)) !! uid
     = Some (mkItem None None).
Proof.
  intros Hst.
  assert (H : handleStateMessage sv uid replyToken text st w
              = handleGeneralMessage sv replyToken text
                  (snd (clearState uid w))).
  { unfold flow_states in Hst. rewrite !not_elem_of_cons in Hst.
    destruct Hst as (H1 & H2 & H3 & H4 & H5 & H6 & H7 & H8 & _).
    unfold handleStateMessage, eqb_js.
    rewrite !bool_decide_eq_false_2 by assumption.
    reflexivity. }
  split; [exact H|]. rewrite H.
  apply cleared_then_talks, handleGeneralMessage_talks.
Qed.

(** X13: the steps that read the collected data, on an item without data:
    [getStateData] gives the empty object even when a key is asked for, so
    the date step stores an empty object as the region, and the conditions
    step runs the camp action with an undefined region and an undefined
    date. *)
Theorem camp_steps_without_data (uid replyToken text : jsstring) w :
  (table w !! uid) ≫= data = None ->
  table (snd (handleStateMessage sv uid replyToken text
                (js "awaiting_date_camp") w)) !! uid
  = Some (mkItem (Some (js "awaiting_conditions_camp"))
            (Some [("region"%string, VObject []);
                   ("date"%string, VString text)]))
  /\ handleStateMessage sv uid replyToken text
       (js "awaiting_conditions_camp") w
     = handleCampInfo sv uid replyToken VUndefined VUndefined text
         (snd (clearState uid (record (GetItemCommand uid) true w))).
Proof.
  intros Hdata. split.
  - unfold handleStateMessage. decide_eqb_js. cbv iota.
    destruct (step_get_put uid (Some "region"%string)
                (fun x => [("region"%string, x); ("date"%string, VString text)])
                (js "awaiting_conditions_camp") replyToken
                (js "希望する条件はありますか？（例：ペットOK、温泉あり、など）")
                (VObject []) w (getStateData_missing _ _ _ Hdata)) as [b ->].
    apply lookup_insert_eq.
  - unfold handleStateMessage. decide_eqb_js. cbv iota.
    exact (step_terminal uid
             (fun x => handleCampInfo sv uid replyToken (field_of x "region")
                         (field_of x "date") text)
             (VObject []) w (getStateData_missing _ _ _ Hdata)).
Qed.

(** X14: the date step on stored data that has no region: the region read
    is undefined and is not written back, so only the date is stored. *)
Theorem date_step_without_region (uid replyToken text : jsstring)
    (st : option jsstring) (d : list (string * JsVal)) w :
  table w !! uid = Some (mkItem st (Some d)) ->
  get_field d "region" = VUndefined ->
  table (snd (handleStateMessage sv uid replyToken text
                (js "awaiting_date_camp") w)) !! uid
  = Some (mkItem (Some (js "awaiting_conditions_camp"))
            (Some [("date"%string, VString text)])).
Proof.
  intros Hitem Hregion.
  destruct (getStateData_stored _ _ _ _ Hitem) as [_ Hkey].
  specialize (Hkey "region"%string ltac:(discriminate)).
  rewrite Hregion in Hkey.
  unfold handleStateMessage. decide_eqb_js. cbv iota.
  destruct (step_get_put uid (Some "region"%string)
              (fun x => [("region"%string, x); ("date"%string, VString text)])
              (js "awaiting_conditions_camp") replyToken
              (js "希望する条件はありますか？（例：ペットOK、温泉あり、など）")
              VUndefined w Hkey) as [b ->].
  apply lookup_insert_eq.
Qed.

End Steps.

Lemma unknown_state_resets_witness :
  (js "awaiting_payment" ∉ flow_states)
  /\ handleStateMessage (services line_up) U (js "token") (js "hello")
       (js "awaiting_payment") midflow
     = handleGeneralMessage (services line_up) (js "token") (js "hello")
         (snd (clearState U midflow))
  /\ table (snd (handleStateMessage (services line_up) U (js "token")
                   (js "hello") (js "awaiting_payment") midflow)) !! U
     = Some (mkItem None None).
Proof.
  assert (H : js "awaiting_payment" ∉ flow_states).
  { unfold flow_states. rewrite !not_elem_of_cons.
    repeat split; try (vm_compute; discriminate). apply not_elem_of_nil. }
  split; [exact H|].
  exact (unknown_state_resets (services line_up) U (js "token") (js "hello")
           (js "awaiting_payment") midflow H).
Defined.

Lemma camp_steps_without_data_witness :
  (table start !! U) ≫= data = None
  /\ table (snd (handleStateMessage (services line_up) U (js "token")
                   (js "3/1") (js "awaiting_date_camp") start)) !! U
     = Some (mkItem (Some (js "awaiting_conditions_camp"))
               (Some [("region"%string, VObject []);
                      ("date"%string, VString (js "3/1"))]))
  /\ handleStateMessage (services line_up) U (js "token") (js "3/1")
       (js "awaiting_conditions_camp") start
     = handleCampInfo (services line_up) U (js "token") VUndefined VUndefined
         (js "3/1")
         (snd (clearState U (record (GetItemCommand U) true start))).
Proof.
  assert (H : (table start !! U) ≫= data = None) by reflexivity.
  split; [exact H|].
  exact (camp_steps_without_data (services line_up) U (js "token") (js "3/1")
           start H).
Defined.

Lemma date_step_without_region_witness :
  let w := mkWorld (Other:=unit)
             {[ U := mkItem (Some (js "awaiting_date_camp"))
                       (Some [("place"%string, VString (js "Tokyo"))]) ]} [] in
  table w !! U
  = Some (mkItem (Some (js "awaiting_date_camp"))
            (Some [("place"%string, VString (js "Tokyo"))]))
  /\ get_field [("place"%string, VString (js "Tokyo"))] "region" = VUndefined
  /\ table (snd (handleStateMessage (services line_up) U (js "token")
                   (js "3/1") (js "awaiting_date_camp") w)) !! U
     = Some (mkItem (Some (js "awaiting_conditions_camp"))
               (Some [("date"%string, VString (js "3/1"))])).
Proof.
  cbv zeta.
  assert (H1 : table (mkWorld (Other:=unit)
                 {[ U := mkItem (Some (js "awaiting_date_camp"))
                           (Some [("place"%string, VString (js "Tokyo"))]) ]} [])
               !! U
               = Some (mkItem (Some (js "awaiting_date_camp"))
                         (Some [("place"%string, VString (js "Tokyo"))])))
    by apply lookup_singleton_eq.
  assert (H2 : get_field [("place"%string, VString (js "Tokyo"))] "region"
               = VUndefined) by reflexivity.
  split; [exact H1|]. split; [exact H2|].
  exact (date_step_without_region (services line_up) U (js "token") (js "3/1")
           _ _ _ H1 H2).
Defined.

(** ** What the actions say and ask *)

Section Actions.

Context {Other : Type} (sv : Services Other).

Implicit Types (w : World Other).

Lemma reply_then_try_replies_once replyToken ack uid apology
    (body : M Other unit) :
  stops_at_failure generation_or_push body ->
  replies_once replyToken ack
    (bind (reply sv replyToken ack)
          (fun _ => try_catch body (pushMessage sv uid apology))).
Proof.
  intros Hbody w.
  assert (Hrest : talks generation_or_push
                    (try_catch body (pushMessage sv uid apology))).
  { apply talks_try_catch; [by apply stops_talks|].
    apply stops_talks. by apply stops_pushMessage. }
  set (act := bind _ _).
  destruct (line_returns sv (trace w) (replyMessage replyToken ack)) eqn:Hr.
  - set (w1 := record (replyMessage replyToken ack) true w).
    assert (Hact : act w = try_catch body (pushMessage sv uid apology) w1).
    { unfold act, bind, reply, line_call. by rewrite Hr. }
    rewrite Hact. destruct (Hrest w1) as (evs & -> & Hevs).
    exists true, evs. unfold w1, record. cbn [table trace].
    rewrite <- app_assoc. done.
  - assert (Hact : act w
                   = (Throw, record (replyMessage replyToken ack) false w)).
    { unfold act, bind, reply, line_call. by rewrite Hr. }
    rewrite Hact. exists false, []. cbn. split; [done|].
    split; [constructor|done].
Qed.

(** X15: each terminal action leaves the table as it is, starts with the
    reply that acknowledges the request with the collected fields as they
    are, replies once only, and after it only calls the completion API and
    pushes; when the acknowledging reply throws, nothing follows. *)
Theorem terminal_actions_reply_once (uid replyToken : jsstring)
    (a b : JsVal) (conditions : jsstring) :
  replies_once replyToken
    (to_str a ++ js "の" ++ to_str b ++ js "に行きたいキャンプ場を、条件「"
     ++ conditions ++ js "」で調べています...")
    (handleCampInfo sv uid replyToken a b conditions)
  /\ replies_once replyToken
       (to_str a ++ js "で、条件「" ++ conditions
        ++ js "」に合う野営ができる場所を調べています...")
       (handleYaychiInfo sv uid replyToken a conditions)
  /\ replies_once replyToken
       (to_str a ++ js "に" ++ to_str b ++ js "の期間で行く際の持ち物を、条件「"
        ++ conditions ++ js "」で提案します...")
       (handleItemSuggestion sv uid replyToken a b conditions).
Proof.
  split; [|split].
  - apply reply_then_try_replies_once, handleCampInfo_try_stops.
  - apply reply_then_try_replies_once, handleYaychiInfo_try_stops.
  - apply reply_then_try_replies_once, handleItemSuggestion_try_stops.
Qed.

(** *** The number of calls to the completion API *)

Lemma chat_calls_app (a b : list (Event Other)) :
  chat_calls (a ++ b) = (chat_calls a + chat_calls b)%nat.
Proof. unfold chat_calls. by rewrite filter_app, length_app. Qed.

Lemma generates_ret {A} (a : A) : generates_at_most 0 (ret (Other:=Other) a).
Proof. intros w. exists []. split; [apply world_eta|done]. Qed.

Lemma generates_line_call c :
  is_chat c = false -> generates_at_most 0 (line_call sv c).
Proof.
  intros Hc w. exists [mkEvent c (line_returns sv (trace w) c)].
  unfold line_call. split; [by destruct (line_returns sv _ _)|].
  unfold chat_calls. rewrite filter_cons_False; [done|].
  cbn. by rewrite Hc.
Qed.

Lemma generates_chat req : generates_at_most 1 (chat_content sv req).
Proof.
  intros w. unfold chat_content.
  destruct (openai_create sv (trace w) req); eexists [_];
    (split; [reflexivity|]); unfold chat_calls;
    rewrite filter_cons_True by done; done.
Qed.

Lemma generates_bind (n1 n2 : nat) {A B} (m : M Other A)
    (k : A -> M Other B) :
  generates_at_most n1 m -> (forall a, generates_at_most n2 (k a)) ->
  generates_at_most (n1 + n2) (bind m k).
Proof.
  intros Hm Hk w. destruct (Hm w) as (e1 & Hw1 & H1).
  unfold bind. destruct (m w) as [[a|] w1]; cbn [snd] in Hw1.
  - destruct (Hk a w1) as (e2 & Hw2 & H2). exists (e1 ++ e2).
    split; [rewrite Hw2, Hw1; cbn; by rewrite app_assoc|].
    rewrite chat_calls_app. lia.
  - exists e1. split; [done|lia].
Qed.

Lemma generates_try_catch (n1 n2 : nat) {A} (body handler : M Other A) :
  generates_at_most n1 body -> generates_at_most n2 handler ->
  generates_at_most (n1 + n2) (try_catch body handler).
Proof.
  intros Hb Hh w. destruct (Hb w) as (e1 & Hw1 & H1).
  unfold try_catch. destruct (body w) as [[a|] w1]; cbn [snd] in Hw1.
  - exists e1. split; [done|lia].
  - destruct (Hh w1) as (e2 & Hw2 & H2). exists (e1 ++ e2).
    split; [rewrite Hw2, Hw1; cbn; by rewrite app_assoc|].
    rewrite chat_calls_app. lia.
Qed.

Lemma generates_mono (n n' : nat) {A} (m : M Other A) :
  (n <= n')%nat -> generates_at_most n m -> generates_at_most n' m.
Proof.
  intros Hn Hm w. destruct (Hm w) as (evs & Hw & H).
  exists evs. split; [done|lia].
Qed.

Lemma generates_for_of (n : nat) {A} (arr : list A) (f : A -> M Other unit) :
  (forall x, generates_at_most n (f x)) ->
  generates_at_most (length arr * n) (for_of arr f).
Proof.
  intros Hf. induction arr as [|x r IH]; cbn [for_of length].
  - apply generates_ret.
  - cbn [Nat.mul]. apply generates_bind; [apply Hf|]. intros _. apply IH.
Qed.

Lemma generates_pushMessage uid text :
  generates_at_most 0 (pushMessage sv uid text).
Proof.
  unfold pushMessage.
  eapply generates_mono; [|apply generates_for_of].
  - by rewrite Nat.mul_0_r.
  - intros t. by apply generates_line_call.
Qed.

(** X16: whatever the services answer, the general message calls the
    completion API at most once, the Yaychi action at most once, the camp
    action at most twice, and the item suggestion at most four times (one
    list and one search for each of the first three items); none of them
    changes the table. *)
Theorem generation_calls_bounded (uid replyToken text : jsstring)
    (a b : JsVal) :
  generates_at_most 1 (handleGeneralMessage sv replyToken text)
  /\ generates_at_most 1 (handleYaychiInfo sv uid replyToken a text)
  /\ generates_at_most 2 (handleCampInfo sv uid replyToken a b text)
  /\ generates_at_most 4 (handleItemSuggestion sv uid replyToken a b text).
Proof.
  assert (Hreply : forall tok msg, generates_at_most 0 (reply sv tok msg)).
  { intros tok msg. by apply generates_line_call. }
  split; [|split; [|split]].
  - unfold handleGeneralMessage.
    apply (generates_try_catch 1 0); [|apply Hreply].
    apply (generates_bind 1 0); [apply generates_chat|].
    intros content. apply Hreply.
  - unfold handleYaychiInfo.
    apply (generates_bind 0 1); [apply Hreply|]. intros _.
    apply (generates_try_catch 1 0); [|apply generates_pushMessage].
    unfold handleYaychiInfo_try.
    apply (generates_bind 1 0); [apply generates_chat|]. intros content.
    cbv zeta. destruct (length _ =? 0)%nat; [apply generates_pushMessage|].
    apply (generates_bind 0 0); [apply generates_pushMessage|]. intros _.
    by apply generates_line_call.
  - unfold handleCampInfo.
    apply (generates_bind 0 2); [apply Hreply|]. intros _.
    apply (generates_try_catch 2 0); [|apply generates_pushMessage].
    unfold handleCampInfo_try.
    apply (generates_bind 1 1); [apply generates_chat|]. intros content.
    cbv zeta. destruct (length _ =? 0)%nat.
    { eapply generates_mono; [|apply generates_pushMessage]. lia. }
    apply (generates_bind 0 1); [apply generates_pushMessage|]. intros _.
    apply (generates_bind 0 1); [by apply generates_line_call|]. intros _.
    apply (generates_bind 1 0); [apply generates_chat|]. intros detail.
    apply generates_pushMessage.
  - unfold handleItemSuggestion.
    apply (generates_bind 0 4); [apply Hreply|]. intros _.
    apply (generates_try_catch 4 0); [|apply generates_pushMessage].
    unfold handleItemSuggestion_try.
    apply (generates_bind 1 3); [apply generates_chat|]. intros content.
    cbv zeta. destruct (length _ =? 0)%nat.
    { eapply generates_mono; [|apply generates_pushMessage]. lia. }
    apply (generates_bind 0 3); [apply generates_pushMessage|]. intros _.
    eapply generates_mono; [|apply (generates_for_of 1)].
    + rewrite length_take. lia.
    + intros item. unfold suggest_product.
      apply (generates_bind 1 0); [apply generates_chat|]. intros r.
      apply generates_pushMessage.
Qed.

(** X17: the general message asks the completion API once, with the
    message of the user after the persona and at most 200 tokens.  When the
    completion gives a content it replies with that content, or with a
    fixed text when the content is absent or empty, and returns if LINE
    takes the reply; if LINE rejects it, it replies again, on the same
    token, with the error text.  When the completion throws it replies with
    the error text.  It throws only when the reply of the error text is
    rejected.  Nothing else is called and the table is left as it is. *)
Theorem general_message_outcomes (replyToken text : jsstring) w :
  let run := handleGeneralMessage sv replyToken text w in
  let fallback := js "すみません、うまく回答できませんでした。" in
  let error := replyMessage (Other:=Other) replyToken
                 (js "すみません、エラーが発生しました。もう一度お試しください。") in
  let request := mkChatRequest [(system, general_persona); (user, text)]
                               (Some 200%nat) in
  let ask := chatCompletion (Other:=Other) request in
  let after evs := (mkWorld (table w) (trace w ++ evs) : World Other) in
  or_else None fallback = fallback
  /\ or_else (Some []) fallback = fallback
  /\ (forall c r, or_else (Some (c :: r)) fallback = c :: r)
  /\ match openai_create sv (trace w) request with
     | Some content =>
       let answer := replyMessage replyToken (or_else content fallback) in
       if line_returns sv (trace w ++ [mkEvent ask true]) answer
       then run = (Ok tt, after [mkEvent ask true; mkEvent answer true])
       else
         let b := line_returns sv
                    (trace w ++ [mkEvent ask true; mkEvent answer false])
                    error in
         run = (if b then Ok tt else Throw,
                after [mkEvent ask true; mkEvent answer false;
                       mkEvent error b])
     | None =>
       let b := line_returns sv (trace w ++ [mkEvent ask false]) error in
       run = (if b then Ok tt else Throw,
              after [mkEvent ask false; mkEvent error b])
     end.
Proof.
  cbv zeta. split; [done|]. split; [done|]. split; [done|].
  unfold general_persona, handleGeneralMessage, try_catch, bind,
    chat_content, reply, line_call, record, ret.
  cbn [trace table].
  destruct (openai_create sv (trace w) _) as [content|]; cbn [trace table].
  - destruct (line_returns sv (trace w ++ [_]) _); cbn [trace table].
    + by rewrite <- app_assoc.
    + rewrite <- !app_assoc. cbn [app].
      by destruct (line_returns sv _ _).
  - rewrite <- !app_assoc. cbn [app].
    by destruct (line_returns sv _ _).
Qed.

End Actions.

(** ** The entry points *)

Section Entry.

Context {Other : Type} (sv : Services Other) (gw : Gateway).

Implicit Types (w : World Other) (event : LambdaEvent).

(** An invocation without a body, or with an empty body, is answered
    200 before the signature is looked at; nothing is called and the table
    is left as it is. *)
Lemma handler_without_body event w :
  truthy_opt (event_body event) = false ->
  handler sv gw event w = (Ok (mkResult 200 "no body"), w).
Proof. intros Hbody. unfold handler. by rewrite Hbody. Qed.

(** X18: an invocation with a body whose signature is missing, empty or
    refused by the SDK is answered 401; nothing is called and the table is
    left as it is.  The header [X-Line-Signature] is read only when the
    header [x-line-signature] is absent: an empty [x-line-signature] makes
    the invocation unauthorized whatever the other header holds. *)
Theorem handler_unauthorized event w :
  truthy_opt (event_body event) = true ->
  truthy_opt (signature_of event) = false
  \/ validateSignature gw (default [] (event_body event)) (CHANNEL_SECRET gw)
       (default [] (signature_of event)) = false
  \/ headers event !! "x-line-signature"%string = Some [] ->
  handler sv gw event w
  = (Ok (mkResult 401 "signature validation failed"), w).
Proof.
  intros Hbody Hsig. unfold handler. rewrite Hbody. cbv zeta.
  destruct Hsig as [Hsig|[Hsig|Hsig]].
  - by rewrite Hsig.
  - rewrite Hsig. by rewrite orb_true_r.
  - unfold signature_of, nullish. by rewrite Hsig.
Qed.

(** X19: an accepted invocation whose body has no [events], an empty list of
    events, or a first event that is neither a follow nor a text message is
    answered 200; nothing is called and the table is left as it is. *)
Theorem handler_nothing_to_process event
    (events : option (list WebhookEvent)) w :
  accepted gw event ->
  JSON_parse_events gw (default [] (event_body event)) = Some events ->
  default [] events = [] \/ head (default [] events) = Some OtherEvent ->
  handler sv gw event w
  = (Ok (mkResult 200 (match default [] events with
                       | [] => "no events"
                       | _ => "ignored"
                       end)), w).
Proof.
  intros (Hbody & Hsig & Hvalid) Hparse Hevents.
  unfold handler. rewrite Hbody. cbv zeta. rewrite Hsig, Hvalid, Hparse. cbn.
  destruct Hevents as [->|Hhead]; [done|].
  destruct (default [] events) as [|e l]; [done|].
  cbn in Hhead. by injection Hhead as ->.
Qed.

Lemma bind_returns {A B} (m : M Other A) (k : A -> M Other B) w (r : B) :
  fst (bind m k w) = Ok r -> exists a w', fst (k a w') = Ok r.
Proof.
  unfold bind. destruct (m w) as [[a|] w']; [|done]. by exists a, w'.
Qed.

Lemma menu_selection_returns uid replyToken text w r :
  fst (menu_selection sv uid replyToken text w) = Ok r -> r = OK.
Proof.
  assert (Hret : forall (m1 m2 : M Other unit) w0,
             fst (bind m1 (fun _ => bind m2 (fun _ => ret OK)) w0) = Ok r ->
             r = OK).
  { intros m1 m2 w0 H. apply bind_returns in H as (_ & w1 & H).
    apply bind_returns in H as (_ & w2 & H). by injection H. }
  unfold menu_selection.
  repeat (destruct (eqb_js text _); [apply Hret|]).
  intros H. apply bind_returns in H as (_ & w1 & H). by injection H.
Qed.

Lemma handle_first_returns (e : WebhookEvent) w r :
  fst (handle_first sv e w) = Ok r ->
  r = OK \/ r = mkResult 200 "ignored".
Proof.
  destruct e as [uid tok|uid tok text|].
  - intros H. left. unfold handle_first in H.
    apply bind_returns in H as (_ & w1 & H).
    apply bind_returns in H as (_ & w2 & H). by injection H.
  - rewrite text_turn_menu. intros H. left.
    by apply menu_selection_returns in H.
  - intros H. right. by injection H.
Qed.

(** X20: when [handler] returns, the status is 200 or 401, and it is 401
    only with the body [signature validation failed]. *)
Theorem handler_status event w (r : APIGatewayProxyResult) :
  fst (handler sv gw event w) = Ok r ->
  statusCode r = 200%nat
  \/ r = mkResult 401 "signature validation failed".
Proof.
  unfold handler.
  destruct (negb (truthy_opt (event_body event))).
  { intros [= <-]. by left. }
  cbv zeta. destruct (_ || _).
  { intros [= <-]. by right. }
  destruct (JSON_parse_events gw _) as [events|]; [|done].
  destruct (default [] events) as [|e l].
  { intros [= <-]. by left. }
  intros H. left. by destruct (handle_first_returns e w r H) as [->| ->].
Qed.

(** *** The echo endpoint *)



(** The echo endpoint reads the header [x-line-signature] only and
    checks the signature even without a body: when that header is absent or
    empty, or the SDK refuses the signature, it answers 401 and calls
    nothing. *)
Lemma webhook_unauthorized event w :
  truthy_opt (headers event !! "x-line-signature"%string) = false
  \/ validateSignature gw (or_else (event_body event) []) (CHANNEL_SECRET gw)
       (default [] (headers event !! "x-line-signature"%string)) = false ->
  webhook sv gw event w = (Ok (mkResult 401 "Unauthorized"), w).
Proof.
  intros Hsig. unfold webhook. cbv zeta.
  destruct Hsig as [Hsig|Hsig]; rewrite Hsig; [done|].
  by rewrite orb_true_r.
Qed.

(** The echo endpoint has no default for the events: on an accepted
    invocation whose body has no [events] it throws. *)
Lemma webhook_without_events event w :
  truthy_opt (headers event !! "x-line-signature"%string) = true ->
  validateSignature gw (or_else (event_body event) []) (CHANNEL_SECRET gw)
    (default [] (headers event !! "x-line-signature"%string)) = true ->
  JSON_parse_events gw (or_else (event_body event) []) = Some None ->
  webhook sv gw event w = (Throw, w).
Proof.
  intros Hsig Hvalid Hparse.
  unfold webhook. cbv zeta. by rewrite Hsig, Hvalid, Hparse.
Qed.

End Entry.

(** ** The menu *)

Section Menu.

Context {Other : Type} (sv : Services Other).

Implicit Types (w : World Other).

Lemma trigger_turn uid replyToken text st prompt w :
  menu_selection sv uid replyToken text
  = bind (putState uid st)
         (fun _ => bind (reply sv replyToken prompt) (fun _ => ret OK)) ->
  exists b : bool,
    handle_first sv (TextMessageEvent uid replyToken text) w
    = (if b then Ok OK else Throw,
       mkWorld (<[uid := mkItem (Some st) None]> (table w))
         (trace w
          ++ [mkEvent (PutItemCommand uid (mkItem None None)) true;
              mkEvent (GetItemCommand uid) true;
              mkEvent (PutItemCommand uid (mkItem (Some st) None)) true;
              mkEvent (replyMessage replyToken prompt) b])).
Proof.
  intros Hmenu. rewrite text_turn_menu, Hmenu, saveUserId_run.
  unfold bind, putState, ddb_put, reply, line_call, record, ret.
  cbn [snd table trace].
  destruct (line_returns sv _ _); [exists true|exists false];
    cbn [snd table trace]; rewrite insert_insert_eq, <- !app_assoc;
    reflexivity.
Qed.

(** X22: for each of the three phrases of the menu, the turn of a user who
    sends the phrase stores the first state of the flow, without data, over
    whatever the item held, and replies with the prompt of that state; the
    handler answers when LINE takes the reply and throws when it does
    not. *)
Theorem menu_phrase_turns (uid replyToken : jsstring) w :
  let turn (text st prompt : jsstring) : Prop :=
    exists b : bool,
      handle_first sv (TextMessageEvent uid replyToken text) w
      = (if b then Ok OK else Throw,
         mkWorld (<[uid := mkItem (Some st) None]> (table w))
           (trace w
            ++ [mkEvent (PutItemCommand uid (mkItem None None)) true;
                mkEvent (GetItemCommand uid) true;
                mkEvent (PutItemCommand uid (mkItem (Some st) None)) true;
                mkEvent (replyMessage replyToken prompt) b])) in
  turn (js "きゃんぷ場調べ") (js "awaiting_region_camp")
       (js "調べたい地域を教えてください。")
  /\ turn (js "野営地調べ") (js "awaiting_prefecture_yaychi")
          (js "野営したい都道府県を教えてください。")
  /\ turn (js "持ち物提案") (js "awaiting_location_items")
          (js "行く場所を教えてください。").
Proof.
  cbv zeta. repeat split; apply trigger_turn;
    unfold menu_selection; decide_eqb_js; reflexivity.
Qed.

(** X23: a text that is none of the three phrases is answered as a general
    message, whatever state the user had: the turn puts the bare key, reads
    no state, runs the general message, and leaves the item of the user
    without state and without data. *)
Theorem other_text_turn (uid replyToken text : jsstring) w :
  text ∉ menu_phrases ->
  handle_first sv (TextMessageEvent uid replyToken text) w
  = bind (handleGeneralMessage sv replyToken text) (fun _ => ret OK)
      (record (GetItemCommand uid) true (snd (saveUserId uid w)))
  /\ table (snd (handle_first sv (TextMessageEvent uid replyToken text) w))
     !! uid = Some (mkItem None None).
Proof.
  intros Htext.
  unfold menu_phrases in Htext. rewrite !not_elem_of_cons in Htext.
  destruct Htext as (H1 & H2 & H3 & _).
  assert (H : handle_first sv (TextMessageEvent uid replyToken text) w
              = bind (handleGeneralMessage sv replyToken text)
                  (fun _ => ret OK)
                  (record (GetItemCommand uid) true (snd (saveUserId uid w)))).
  { rewrite text_turn_menu. unfold menu_selection, eqb_js.
    by rewrite !bool_decide_eq_false_2 by assumption. }
  split; [exact H|]. rewrite H.
  rewrite (talks_table outbound).
  - apply saveUserId_lookup.
  - apply talks_bind; [apply handleGeneralMessage_talks|].
    intros _. apply stops_talks, stops_ret.
Qed.

(** *** The items of the other users *)

Lemma writes_only_talks P {A} uid (m : M Other A) :
  talks P m -> writes_only_to uid m.
Proof. intros Hm w other _. by rewrite (talks_table P). Qed.

Lemma writes_only_bind {A B} uid (m : M Other A) (k : A -> M Other B) :
  writes_only_to uid m -> (forall a, writes_only_to uid (k a)) ->
  writes_only_to uid (bind m k).
Proof.
  intros Hm Hk w other Hother. specialize (Hm w other Hother).
  unfold bind. destruct (m w) as [[a|] w1]; cbn [snd] in Hm |- *; [|done].
  by rewrite (Hk a w1 other Hother).
Qed.

Lemma writes_only_put uid item :
  writes_only_to uid (ddb_put (Other:=Other) uid item).
Proof. intros w other Hother. cbn. by apply lookup_insert_ne. Qed.

Lemma writes_only_getStateData uid key :
  writes_only_to uid (getStateData (Other:=Other) uid key).
Proof.
  intros w other _. by destruct (getStateData_run uid key w) as (v & ->).
Qed.

Lemma handleStateMessage_writes_only uid replyToken text st :
  writes_only_to uid (handleStateMessage sv uid replyToken text st).
Proof.
  assert (Hput : forall item (m : M Other unit),
             talks outbound m ->
             writes_only_to uid (bind (ddb_put uid item) (fun _ => m))).
  { intros item m Hm. apply writes_only_bind; [apply writes_only_put|].
    intros _. by apply (writes_only_talks outbound). }
  assert (Hget : forall key (k : JsVal -> M Other unit),
             (forall v, writes_only_to uid (k v)) ->
             writes_only_to uid (bind (getStateData uid key) k)).
  { intros key k Hk.
    apply writes_only_bind; [apply writes_only_getStateData|done]. }
  unfold handleStateMessage, putStateWithData, clearState.
  destruct (eqb_js st (js "awaiting_region_camp")).
  { apply Hput. apply reply_talks. }
  destruct (eqb_js st (js "awaiting_date_camp")).
  { apply Hget. intros v. apply Hput. apply reply_talks. }
  destruct (eqb_js st (js "awaiting_conditions_camp")).
  { apply Hget. intros v. apply Hput. apply handleCampInfo_talks. }
  destruct (eqb_js st (js "awaiting_prefecture_yaychi")).
  { apply Hput. apply reply_talks. }
  destruct (eqb_js st (js "awaiting_conditions_yaychi")).
  { apply Hget. intros v. apply Hput. apply handleYaychiInfo_talks. }
  destruct (eqb_js st (js "awaiting_location_items")).
  { apply Hput. apply reply_talks. }
  destruct (eqb_js st (js "awaiting_duration_items")).
  { apply Hget. intros v. apply Hput. apply reply_talks. }
  destruct (eqb_js st (js "awaiting_conditions_items")).
  { apply Hget. intros v. apply Hput. apply handleItemSuggestion_talks. }
  apply Hput. apply handleGeneralMessage_talks.
Qed.

(** X24: a turn changes no item but the one of the user of its event: the
    items of all the other users are after the turn what they were before,
    in the logic on the first event and in every branch of the state
    machine. *)
Theorem turn_leaves_other_users (e : WebhookEvent)
    (uid replyToken text st other : jsstring) w :
  event_user e <> Some other ->
  other <> uid ->
  table (snd (handle_first sv e w)) !! other = table w !! other
  /\ table (snd (handleStateMessage sv uid replyToken text st w)) !! other
     = table w !! other.
Proof.
  intros He Huid. split; [|by apply handleStateMessage_writes_only].
  destruct e as [u tok|u tok txt|]; cbn in He.
  - destruct (follow_run sv u tok w) as (r & ->). cbn [table].
    apply lookup_insert_ne. congruence.
  - rewrite text_turn_menu.
    assert (Hmenu : writes_only_to u (menu_selection sv u tok txt)).
    { assert (Hret : forall m : M Other unit,
                 talks outbound m -> talks outbound (bind m (fun _ => ret OK))).
      { intros m Hm. apply talks_bind; [done|].
        intros _. apply stops_talks, stops_ret. }
      unfold menu_selection, putState.
      repeat (destruct (eqb_js txt _);
              [apply writes_only_bind; [apply writes_only_put|];
               intros _; apply (writes_only_talks outbound), Hret,
                 reply_talks|]).
      apply (writes_only_talks outbound), Hret, handleGeneralMessage_talks. }
    rewrite Hmenu by congruence.
    rewrite saveUserId_run. cbn [record table snd].
    apply lookup_insert_ne. congruence.
  - done.
Qed.

End Menu.

(** ** The scenarios of the further properties *)

Lemma handler_without_body_witness :
  truthy_opt (event_body bare_invocation) = false
  /\ handler (services line_up) (gateway []) bare_invocation start
     = (Ok (mkResult 200 "no body"), start).
Proof.
  split; [reflexivity|].
  exact (handler_without_body (services line_up) (gateway [])
           bare_invocation start eq_refl).
Defined.

Lemma handler_unauthorized_witness :
  let gw := checking_gateway [text_event (js "token") (js "hello")] in
  truthy_opt (event_body shadowed_invocation) = true
  /\ (truthy_opt (signature_of shadowed_invocation) = false
      \/ validateSignature gw (default [] (event_body shadowed_invocation))
           (CHANNEL_SECRET gw) (default [] (signature_of shadowed_invocation))
         = false
      \/ headers shadowed_invocation !! "x-line-signature"%string = Some [])
  /\ handler (services line_up) gw shadowed_invocation start
     = (Ok (mkResult 401 "signature validation failed"), start).
Proof.
  cbv zeta.
  assert (H1 : truthy_opt (event_body shadowed_invocation) = true)
    by reflexivity.
  assert (H2 : headers shadowed_invocation !! "x-line-signature"%string
               = Some []) by (vm_compute; reflexivity).
  split; [exact H1|]. split; [right; right; exact H2|].
  exact (handler_unauthorized (services line_up)
           (checking_gateway [text_event (js "token") (js "hello")])
           shadowed_invocation start H1 (or_intror (or_intror H2))).
Defined.

Lemma handler_nothing_to_process_witness :
  let gw := gateway [OtherEvent; text_event (js "token") (js "hello")] in
  let events := Some [OtherEvent; text_event (js "token") (js "hello")] in
  accepted gw invocation
  /\ JSON_parse_events gw (default [] (event_body invocation)) = Some events
  /\ (default [] events = [] \/ head (default [] events) = Some OtherEvent)
  /\ handler (services line_up) gw invocation start
     = (Ok (mkResult 200 "ignored"), start).
Proof.
  cbv zeta.
  assert (H1 : accepted
                 (gateway [OtherEvent; text_event (js "token") (js "hello")])
                 invocation).
  { unfold accepted. repeat split; vm_compute; reflexivity. }
  split; [exact H1|]. split; [reflexivity|]. split; [by right|].
  exact (handler_nothing_to_process (services line_up)
           (gateway [OtherEvent; text_event (js "token") (js "hello")])
           invocation
           (Some [OtherEvent; text_event (js "token") (js "hello")])
           start H1 eq_refl (or_intror eq_refl)).
Defined.

Lemma handler_status_witness :
  let gw := gateway [text_event (js "token") (js "きゃんぷ場調べ")] in
  fst (handler (services line_up) gw invocation start) = Ok OK
  /\ (statusCode OK = 200%nat
      \/ OK = mkResult 401 "signature validation failed").
Proof.
  cbv zeta.
  assert (H : fst (handler (services line_up)
                     (gateway [text_event (js "token") (js "きゃんぷ場調べ")])
                     invocation start) = Ok OK)
    by (vm_compute; reflexivity).
  split; [exact H|].
  exact (handler_status (services line_up) _ invocation start OK H).
Defined.


Lemma webhook_unauthorized_witness :
  (truthy_opt (headers bare_invocation !! "x-line-signature"%string) = false
   \/ validateSignature (gateway []) (or_else (event_body bare_invocation) [])
        (CHANNEL_SECRET (gateway []))
        (default [] (headers bare_invocation !! "x-line-signature"%string))
      = false)
  /\ webhook (services line_up) (gateway []) bare_invocation start
     = (Ok (mkResult 401 "Unauthorized"), start).
Proof.
  assert (H : truthy_opt (headers bare_invocation !! "x-line-signature"%string)
              = false) by reflexivity.
  split; [by left|].
  exact (webhook_unauthorized (services line_up) (gateway []) bare_invocation
           start (or_introl H)).
Defined.

Lemma other_text_turn_witness :
  (js "hello" ∉ menu_phrases)
  /\ handle_first (services line_up) (text_event (js "token") (js "hello"))
       midflow
     = bind (handleGeneralMessage (services line_up) (js "token") (js "hello"))
         (fun _ => ret OK)
         (record (GetItemCommand U) true (snd (saveUserId U midflow)))
  /\ table (snd (handle_first (services line_up)
                   (text_event (js "token") (js "hello")) midflow)) !! U
     = Some (mkItem None None).
Proof.
  assert (H : js "hello" ∉ menu_phrases).
  { unfold menu_phrases. rewrite !not_elem_of_cons.
    repeat split; try (vm_compute; discriminate). apply not_elem_of_nil. }
  split; [exact H|].
  exact (other_text_turn (services line_up) U (js "token") (js "hello")
           midflow H).
Defined.

Lemma turn_leaves_other_users_witness :
  let w := mkWorld (Other:=unit)
             {[ U2 := mkItem (Some (js "awaiting_date_camp"))
                        (Some [("region"%string, VString (js "Osaka"))]) ]} [] in
  event_user (text_event (js "token") (js "hello")) <> Some U2
  /\ U2 <> U
  /\ table (snd (handle_first (services line_up)
                   (text_event (js "token") (js "hello")) w)) !! U2
     = table w !! U2
  /\ table (snd (handleStateMessage (services line_up) U (js "token")
                   (js "Tokyo") (js "awaiting_region_camp") w)) !! U2
     = table w !! U2.
Proof.
  cbv zeta.
  assert (H1 : event_user (text_event (js "token") (js "hello")) <> Some U2)
    by (vm_compute; discriminate).
  assert (H2 : U2 <> U) by (vm_compute; discriminate).
  split; [exact H1|]. split; [exact H2|].
  exact (turn_leaves_other_users (services line_up)
           (text_event (js "token") (js "hello")) U (js "token") (js "Tokyo")
           (js "awaiting_region_camp") U2 _ H1 H2).
Defined.

(** ** The Flex messages that are pushed *)

Section Pushed.

Context {Other : Type} (sv : Services Other).

(** X25: whatever the completion answers, a Flex message pushed by the camp
    action or by the Yaychi action has exactly the bubbles of its template,
    as many as the template holds; the actions leave the table as it is. *)
Theorem pushed_flex_messages_sized (uid replyToken : jsstring) (a b : JsVal)
    (conditions : jsstring) :
  talks (flex_sized sv) (handleCampInfo sv uid replyToken a b conditions)
  /\ talks (flex_sized sv) (handleYaychiInfo sv uid replyToken a conditions).
Proof.
  assert (Hpush : forall u t, talks (flex_sized sv) (pushMessage sv u t)).
  { intros u t. apply stops_talks. by apply stops_pushMessage. }
  assert (Hchat : forall req, talks (flex_sized sv) (chat_content sv req)).
  { intros req. apply stops_talks. by apply stops_chat. }
  assert (Hreply : forall tok msg, talks (flex_sized sv) (reply sv tok msg)).
  { intros tok msg. apply stops_talks. by apply stops_line_call. }
  split.
  - unfold handleCampInfo. apply talks_bind; [apply Hreply|]. intros _.
    apply talks_try_catch; [|apply Hpush].
    unfold handleCampInfo_try. apply talks_bind; [apply Hchat|].
    intros content. cbv zeta.
    destruct (length (parseResponse content) =? 0)%nat; [apply Hpush|].
    apply talks_bind; [apply Hpush|]. intros _.
    apply talks_bind.
    + apply stops_talks, stops_line_call. cbn [flex_sized].
      apply Nat.eqb_eq.
      exact (forEach_from_length write_camp (parseResponse content) O
               (contents (flexCamp sv))).
    + intros _. apply talks_bind; [apply Hchat|]. intros detail. apply Hpush.
  - unfold handleYaychiInfo. apply talks_bind; [apply Hreply|]. intros _.
    apply talks_try_catch; [|apply Hpush].
    unfold handleYaychiInfo_try. apply talks_bind; [apply Hchat|].
    intros content. cbv zeta.
    destruct (length (parseYaychiResponse (or_else content [])) =? 0)%nat;
      [apply Hpush|].
    apply talks_bind; [apply Hpush|]. intros _.
    apply stops_talks, stops_line_call. cbn [flex_sized].
    apply Nat.eqb_eq.
    exact (forEach_from_length write_yaychi
             (parseYaychiResponse (or_else content [])) O
             (contents (flexYaychi sv))).
Qed.

End Pushed.
